(** * Requirement/capability matching of LISA's runbook schema

    Shallow embedding of [NodeSpace.check], [NodeSpace._generate_min_capability]
    and [EnvironmentSpace.check] from [lisa/schema.py].

    [Feature] is a mutable Python dataclass and the code shares [Feature]
    objects between sets (and mutates them in [_generate_min_capability]),
    so features live in a heap [store] and feature sets hold references.
    Count values ([int] and [IntRange]) are immutable values.  Code runs in
    a state-and-exception monad over that heap: a raised exception keeps the
    writes done before it, as in Python. *)

From Stdlib Require Import ZArith Lia.
From stdpp Require Import base gmap list strings pretty.

Open Scope Z_scope.

(** ** Heap of [Feature] objects *)

Record Feature := mkFeature {
  f_name : string;
  f_enabled : bool;
  f_can_disable : bool;
}.

(** [Feature()] defaults: [name=""], [enabled=True], [can_disable=False]. *)
Definition default_feature : Feature := mkFeature "" true false.

Abbreviation loc := positive.

Abbreviation store := (gmap loc Feature).

Definition deref (σ : store) (l : loc) : Feature :=
  from_option id default_feature (σ !! l).

(** A [SetSpace[Feature]]: the references of its elements, in insertion
    order; [add] does nothing for an element already in the set. *)
Definition FeatureSet := list loc.

Definition set_add (l : loc) (s : FeatureSet) : FeatureSet :=
  if decide (l ∈ s) then s else s ++ [l].

Definition set_update (s t : FeatureSet) : FeatureSet :=
  fold_left (fun acc l => set_add l acc) t s.

(** Python truthiness of an [Optional[SetSpace]]: [None] and the empty set
    are falsy. *)
Definition set_truthy (s : option FeatureSet) : bool :=
  match s with Some (_ :: _) => true | _ => false end.

(** ** Count spaces: [int], [IntRange(min, max)] or [None] *)

Inductive CountSpace :=
| CInt (n : Z)
| CRange (min : Z) (max : option Z).   (** [max = None]: unbounded *)

(** Python truthiness of an [Optional[CountSpace]]: [None] and [0] are falsy,
    an [IntRange] object is truthy. *)
Definition cs_truthy (x : option CountSpace) : bool :=
  match x with
  | None => false
  | Some (CInt n) => negb (n =? 0)
  | Some (CRange _ _) => true
  end.

(** ** NodeSpace *)

Record NodeSpace := mkNodeSpace {
  ns_type : string;
  ns_name : string;
  ns_is_default : bool;
  ns_artifact : string;
  node_count : option CountSpace;
  core_count : option CountSpace;
  memory_mb : option CountSpace;
  nic_count : option CountSpace;
  gpu_count : option CountSpace;
  features : option FeatureSet;
  excluded_features : option FeatureSet;
}.

(** [constants.ENVIRONMENTS_NODES_REQUIREMENT] *)
Definition ENVIRONMENTS_NODES_REQUIREMENT : string := "requirement".

(** [NodeSpace()] with its field defaults. *)
Definition NodeSpace_default : NodeSpace := {|
  ns_type := ENVIRONMENTS_NODES_REQUIREMENT;
  ns_name := "";
  ns_is_default := false;
  ns_artifact := "";
  node_count := Some (CRange 1 None);
  core_count := Some (CRange 1 None);
  memory_mb := Some (CRange 512 None);
  nic_count := Some (CRange 1 None);
  gpu_count := Some (CRange 0 None);
  features := None;
  excluded_features := None;
|}.

(** ** Exceptions and the state-and-exception monad *)

Inductive exn :=
| AssertionError
| IndexError
| LisaException (msg : string).

Definition M (A : Type) : Type := store -> (exn + A) * store.

Definition ret {A} (a : A) : M A := fun σ => (inr a, σ).

Definition bind {A B} (m : M A) (k : A -> M B) : M B :=
  fun σ => match m σ with
           | (inl e, σ') => (inl e, σ')
           | (inr a, σ') => k a σ'
           end.

Definition raise {A} (e : exn) : M A := fun σ => (inl e, σ).

Definition get : M store := fun σ => (inr σ, σ).

Definition put (σ : store) : M unit := fun _ => (inr tt, σ).

Notation "x <- m ;; k" := (bind m (fun x => k))
  (at level 100, m at next level, right associativity).

(** Read the [Feature] objects of a set. *)
Definition read_features (s : FeatureSet) : M (list Feature) :=
  σ <- get ;; ret (map (deref σ) s).

(** [feature.enabled = False] on the object at [l]. *)
Definition set_enabled_false (l : loc) : M unit :=
  σ <- get ;;
  let f := deref σ l in
  put (<[l := mkFeature (f_name f) false (f_can_disable f)]> σ).

(** ** ResultReason

    Reasons are kept in structured form; each constructor stands for the
    message string the code formats. *)

Inductive reason :=
| RCapabilityNone                (** "capability shouldn't be None" *)
| RCountsNone                    (** "node_count, core_count, memory_mb, nic_count shouldn't be None" *)
| RNodeCountLess (cap req : Z)   (** f"capability node count {cap} must be more than requirement {req}" *)
| RCountMissing (req : CountSpace)
| RCountNotCovered (req cap : CountSpace)
| RFeaturesMissing (names : list string)
| RFeaturesExcluded (names : list string)
| RNodesNone                     (** "nodes shouldn't be None or empty" *)
| RNamed (name : string) (r : reason).   (** f"{name}: {reason}" *)

Record ResultReason := mkRR {
  result : bool;
  reasons : list reason;
}.

(** [ResultReason.result], under a name that local [result] variables do not
    shadow. *)
Definition rr_verdict (rr : ResultReason) : bool := result rr.

(** [ResultReason()] *)
Definition rr_new : ResultReason := mkRR true [].

(** Modelled from the spec: [ResultReason.add_reason] (lisa/search_space.py is
    not in the sources); adding a reason makes the verdict false. *)
Definition add_reason (rr : ResultReason) (r : reason) : ResultReason :=
  mkRR false (reasons rr ++ [r]).

(** Modelled from the spec: [ResultReason.merge(other, field_name)]
    "namespaces and appends another ResultReason's reasons into this one and
    ANDs the boolean verdict". *)
Definition merge (rr sub : ResultReason) (name : string) : ResultReason :=
  mkRR (result rr && result sub) (reasons rr ++ map (RNamed name) (reasons sub)).

(** ** Count-space resolver (spec 4.1) *)

(** An [int] is the range [n, n]; an unbounded max is +infinity. *)
Definition cs_min (x : CountSpace) : Z :=
  match x with CInt n => n | CRange lo _ => lo end.

Definition cs_max (x : CountSpace) : option Z :=
  match x with CInt n => Some n | CRange _ hi => hi end.

Definition max_ge (c r : option Z) : bool :=
  match c, r with
  | None, _ => true
  | Some _, None => false
  | Some c', Some r' => r' <=? c'
  end.

(** Modelled from the spec: [search_space.check_countspace] (4.1).  Two exact
    integers pass iff [capability >= requirement]; otherwise the capability
    range must cover the requirement range.  A requirement of [None] asks for
    nothing; a requirement against a capability of [None] fails. *)
Definition check_countspace (req cap : option CountSpace) : ResultReason :=
  match req, cap with
  | None, _ => rr_new
  | Some r, None => add_reason rr_new (RCountMissing r)
  | Some (CInt r), Some (CInt c) =>
      if r <=? c then rr_new else add_reason rr_new (RCountNotCovered (CInt r) (CInt c))
  | Some r, Some c =>
      if (cs_min c <=? cs_min r) && max_ge (cs_max c) (cs_max r) then rr_new
      else add_reason rr_new (RCountNotCovered r c)
  end.

Definition min_opt (a b : option Z) : option Z :=
  match a, b with
  | None, x | x, None => x
  | Some a', Some b' => Some (Z.min a' b')
  end.

(** Modelled from the spec: [search_space.generate_min_capability_countspace]
    (4.1).  Two exact integers give the capability's value; otherwise the
    range intersecting both sides, a missing side bounding nothing. *)
Definition generate_min_capability_countspace (req cap : option CountSpace)
  : option CountSpace :=
  match req, cap with
  | Some (CInt _), Some (CInt c) => Some (CInt c)
  | None, None => None
  | None, Some c => Some c
  | Some r, None => Some r
  | Some r, Some c =>
      Some (CRange (Z.max (cs_min r) (cs_min c)) (min_opt (cs_max r) (cs_max c)))
  end.

(** ** Feature-set resolver (spec 4.2) *)

Definition names (fs : list Feature) : list string := map f_name fs.

(** Modelled from the spec: [search_space.check] on an allow set.  Every
    requirement feature must be present (by name) in the capability's set; a
    capability without a feature set leaves features unconstrained.  The
    spec's further condition, "compatible with the capability's declared
    feature", is not defined there and is not modelled: only presence by name
    is checked. *)
Definition check_allow_set (req : list Feature) (cap : option (list Feature))
  : ResultReason :=
  match cap with
  | None => rr_new
  | Some c =>
      let missing := List.filter (fun n => negb (bool_decide (n ∈ names c))) (names req) in
      match missing with
      | [] => rr_new
      | _ => add_reason rr_new (RFeaturesMissing missing)
      end
  end.

(** Modelled from the spec: [search_space.check] on a deny set against the
    must-include set.  It passes iff no excluded feature name appears in the
    must-include set; [None] (no capability feature set) includes nothing. *)
Definition check_deny_set (req : list Feature) (must : option (list Feature))
  : ResultReason :=
  let m := from_option id [] must in
  let present := List.filter (fun n => bool_decide (n ∈ names m)) (names req) in
  match present with
  | [] => rr_new
  | _ => add_reason rr_new (RFeaturesExcluded present)
  end.

Definition read_opt_features (s : option FeatureSet) : M (option (list Feature)) :=
  match s with
  | None => ret None
  | Some l => fs <- read_features l ;; ret (Some fs)
  end.

(** ** [NodeSpace.check]

    The [is_allow_set] assertions on [features] and [excluded_features] are
    not modelled: this model covers requirements whose tags [__post_init__]
    set ([features] an allow set, [excluded_features] a deny set), for which
    they hold.  Nodes built by [from_value] or [_generate_min_capability]
    assign fresh [SetSpace] objects after [__post_init__] and are outside
    this model of [check]. *)
Definition NodeSpace_check (self : NodeSpace) (capability : option NodeSpace)
  : M ResultReason :=
  let result := rr_new in
  let result := match capability with
                | None => add_reason result RCapabilityNone
                | Some _ => result
                end in
  match capability with
  | None => raise AssertionError   (* assert isinstance(capability, NodeSpace) *)
  | Some cap =>
      must_included_capability <-
        (if set_truthy (features cap) && set_truthy (excluded_features self) then
           capfs <- read_features (from_option id [] (features cap)) ;;
           ret (Some (List.filter (fun f => f_enabled f && negb (f_can_disable f)) capfs))
         else ret None) ;;
      let result :=
        if negb (cs_truthy (node_count cap)) || negb (cs_truthy (core_count cap))
           || negb (cs_truthy (memory_mb cap)) || negb (cs_truthy (nic_count cap))
        then add_reason result RCountsNone else result in
      let result :=
        match node_count self, node_count cap with
        | Some (CInt r), Some (CInt c) =>
            if c <? r then add_reason result (RNodeCountLess c r) else result
        | _, _ =>
            merge result (check_countspace (node_count self) (node_count cap)) "node_count"
        end in
      let result := merge result
        (check_countspace (core_count self) (core_count cap)) "core_count" in
      let result := merge result
        (check_countspace (memory_mb self) (memory_mb cap)) "memory_mb" in
      let result := merge result
        (check_countspace (nic_count self) (nic_count cap)) "nic_count" in
      let result := merge result
        (check_countspace (gpu_count self) (gpu_count cap)) "gpu_count" in
      reqfs <- read_opt_features (features self) ;;
      capfs <- read_opt_features (features cap) ;;
      (* search_space.check(self.features, capability.features) *)
      let result := match reqfs with
                    | None => result
                    | Some r => merge result (check_allow_set r capfs) "features"
                    end in
      match excluded_features self with
      | None => ret result
      | Some ex =>
          exfs <- read_features ex ;;
          ret (merge result (check_deny_set exfs must_included_capability)
                 "excluded_features")
      end
  end.

(** ** [NodeSpace._generate_min_capability] *)

(** The loop over [self.excluded_features]: [enabled = False] on each
    object, which is then added to [min_value.features]. *)
Fixpoint add_excluded (ex : FeatureSet) (fs : FeatureSet) : M FeatureSet :=
  match ex with
  | [] => ret fs
  | excluded_feature :: rest =>
      _ <- set_enabled_false excluded_feature ;;
      add_excluded rest (set_add excluded_feature fs)
  end.

Definition NodeSpace_generate_min_capability (self capability : NodeSpace)
  : M NodeSpace :=
  let min_value := NodeSpace_default in
  nc <- (if cs_truthy (node_count self) || cs_truthy (node_count capability) then
           match node_count self, node_count capability with
           | Some (CInt _), Some (CInt c) =>
               (* capability can have more node *)
               ret (Some (CInt c))
           | _, _ =>
               ret (generate_min_capability_countspace
                      (node_count self) (node_count capability))
           end
         else raise (LisaException "node_count cannot be zero")) ;;
  cc <- (if cs_truthy (core_count self) || cs_truthy (core_count capability) then
           ret (generate_min_capability_countspace
                  (core_count self) (core_count capability))
         else raise (LisaException "core_count cannot be zero")) ;;
  mm <- (if cs_truthy (memory_mb self) || cs_truthy (memory_mb capability) then
           ret (generate_min_capability_countspace
                  (memory_mb self) (memory_mb capability))
         else raise (LisaException "memory_mb cannot be zero")) ;;
  nic <- (if cs_truthy (nic_count self) || cs_truthy (nic_count capability) then
            ret (generate_min_capability_countspace
                   (nic_count self) (nic_count capability))
          else raise (LisaException "nic_count cannot be zero")) ;;
  let gpu := if cs_truthy (gpu_count self) || cs_truthy (gpu_count capability)
             then generate_min_capability_countspace (gpu_count self) (gpu_count capability)
             else Some (CInt 0) in
  let fs : FeatureSet := [] in
  let fs := if set_truthy (features self)
            then set_update fs (from_option id [] (features self)) else fs in
  fs <- (if set_truthy (excluded_features self)
         then add_excluded (from_option id [] (excluded_features self)) fs
         else ret fs) ;;
  ret {| ns_type := ns_type min_value;
         ns_name := ns_name min_value;
         ns_is_default := ns_is_default min_value;
         ns_artifact := ns_artifact min_value;
         node_count := nc;
         core_count := cc;
         memory_mb := mm;
         nic_count := nic;
         gpu_count := gpu;
         features := Some fs;
         excluded_features := excluded_features min_value |}.

(** ** EnvironmentSpace *)

Record EnvironmentSpace := mkEnvironmentSpace {
  topology : string;
  nodes : list NodeSpace;
}.

(** [capability.nodes[0]] when the capability has one node, else
    [capability.nodes[index]] (an [IndexError] past its end). *)
Definition pick_cap (capnodes : list NodeSpace) (index : nat) : M NodeSpace :=
  let i := if Nat.eqb (length capnodes) 1 then 0%nat else index in
  match nth_error capnodes i with
  | Some c => ret c
  | None => raise IndexError
  end.

(** The [for index, current_req in enumerate(self.nodes)] loop, with its
    [break] at the first failing node.  [search_space.check] on a
    requirement object delegates to its [check] method (spec 4.4). *)
Fixpoint env_loop (reqs capnodes : list NodeSpace) (index : nat)
  (result : ResultReason) : M ResultReason :=
  match reqs with
  | [] => ret result
  | current_req :: rest =>
      current_cap <- pick_cap capnodes index ;;
      sub <- NodeSpace_check current_req (Some current_cap) ;;
      let result := merge result sub (pretty index) in
      if negb (rr_verdict result) then ret result
      else env_loop rest capnodes (S index) result
  end.

Definition EnvironmentSpace_check (self capability : EnvironmentSpace)
  : M ResultReason :=
  let result := rr_new in
  match nodes capability with
  | [] => ret (add_reason result RNodesNone)
  | _ => env_loop (nodes self) (nodes capability) 0 result
  end.

(** ** Views of a check's outcome used by the statements below *)

(** The reasons recorded under the field prefix [name], unwrapped. *)
Fixpoint named_reasons (name : string) (rs : list reason) : list reason :=
  match rs with
  | [] => []
  | RNamed n y :: rest =>
      if String.eqb n name then y :: named_reasons name rest
      else named_reasons name rest
  | _ :: rest => named_reasons name rest
  end.

Definition is_named (x : reason) : bool :=
  match x with RNamed _ _ => true | _ => false end.

(** The unprefixed exact-integer node_count failures. *)
Definition node_count_less_reasons (rs : list reason) : list reason :=
  List.filter (fun x => match x with RNodeCountLess _ _ => true | _ => false end) rs.

(** The must-include set of spec 4.2: the capability's features that are
    enabled and cannot be disabled. *)
Definition must_include (σ : store) (c : NodeSpace) : list Feature :=
  List.filter (fun f => f_enabled f && negb (f_can_disable f))
    (map (deref σ) (from_option id [] (features c))).

(** The guard of [NodeSpace.check] on the capability's four counts. *)
Definition node_guard_failed (c : NodeSpace) : bool :=
  negb (cs_truthy (node_count c)) || negb (cs_truthy (core_count c))
  || negb (cs_truthy (memory_mb c)) || negb (cs_truthy (nic_count c)).

Definition node_count_exact (r c : NodeSpace) : option (Z * Z) :=
  match node_count r, node_count c with
  | Some (CInt a), Some (CInt b) => Some (a, b)
  | _, _ => None
  end.

(** The sub-checks [NodeSpace.check] merges, in order, each with the field
    name it prefixes its reasons with. *)
Definition node_field_checks (r c : NodeSpace) (σ : store)
  : list (string * ResultReason) :=
  match node_count_exact r c with
  | Some _ => []
  | None => [("node_count", check_countspace (node_count r) (node_count c))]
  end ++
  [("core_count", check_countspace (core_count r) (core_count c));
   ("memory_mb", check_countspace (memory_mb r) (memory_mb c));
   ("nic_count", check_countspace (nic_count r) (nic_count c));
   ("gpu_count", check_countspace (gpu_count r) (gpu_count c))] ++
  match features r with
  | None => []
  | Some fr =>
      [("features", check_allow_set (map (deref σ) fr)
                      (option_map (map (deref σ)) (features c)))]
  end ++
  match excluded_features r with
  | None => []
  | Some ex =>
      [("excluded_features",
        check_deny_set (map (deref σ) ex) (Some (must_include σ c)))]
  end.

(** What [NodeSpace.check] records before the merged sub-checks: the guard
    reason and the exact-integer node_count reason. *)
Definition node_base (r c : NodeSpace) : ResultReason :=
  let b := if node_guard_failed c then add_reason rr_new RCountsNone else rr_new in
  match node_count_exact r c with
  | Some (a, b') => if b' <? a then add_reason b (RNodeCountLess b' a) else b
  | None => b
  end.

Definition merge_all (base : ResultReason) (subs : list (string * ResultReason))
  : ResultReason :=
  fold_left (fun acc p => merge acc (snd p) (fst p)) subs base.

(** The loop of [EnvironmentSpace.check] over already paired nodes. *)
Fixpoint env_fold (pairs : list (NodeSpace * NodeSpace)) (index : nat)
  (result : ResultReason) : M ResultReason :=
  match pairs with
  | [] => ret result
  | (r, c) :: rest =>
      sub <- NodeSpace_check r (Some c) ;;
      let result := merge result sub (pretty index) in
      if negb (rr_verdict result) then ret result
      else env_fold rest (S index) result
  end.

(** The requirement nodes [reqs], from position [index] on, each pass against
    the capability node [pick_cap] gives them, with sub-results [subs]. *)
Fixpoint nodes_pass (capnodes : list NodeSpace) (σ : store) (index : nat)
  (reqs : list NodeSpace) (subs : list ResultReason) : Prop :=
  match reqs, subs with
  | [], [] => True
  | r :: reqs', s :: subs' =>
      (exists c, pick_cap capnodes index σ = (inr c, σ) /\
                 NodeSpace_check r (Some c) σ = (inr s, σ)) /\
      rr_verdict s = true /\ nodes_pass capnodes σ (S index) reqs' subs'
  | _, _ => False
  end.

(** The reasons of [subs], each prefixed with its node index from [index] on. *)
Fixpoint indexed_reasons (index : nat) (subs : list ResultReason) : list reason :=
  match subs with
  | [] => []
  | s :: subs' => map (RNamed (pretty index)) (reasons s) ++ indexed_reasons (S index) subs'
  end.

Definition merged_reasons (subs : list (string * ResultReason)) : list reason :=
  concat (map (fun p => map (RNamed (fst p)) (reasons (snd p))) subs).

(** Each resolver records at most one reason, exactly when it fails. *)
Definition single_reason (sub : ResultReason) : Prop :=
  sub = rr_new \/ exists x, sub = add_reason rr_new x.

(** The node_count step of [NodeSpace.check] on two exact integers. *)
Definition node_count_verdict (r c : NodeSpace) : bool :=
  match node_count_exact r c with Some (a, b) => a <=? b | None => true end.

Definition node_count_failure (r c : NodeSpace) : list reason :=
  match node_count_exact r c with
  | Some (a, b) => if b <? a then [RNodeCountLess b a] else []
  | None => []
  end.

Definition is_counts_none (x : reason) : bool :=
  match x with RCountsNone => true | _ => false end.

(** A [NodeSpace] with exact-integer counts and no feature sets. *)
Definition exact_node (n c m nic g : Z) : NodeSpace :=
  {| ns_type := ENVIRONMENTS_NODES_REQUIREMENT; ns_name := "";
     ns_is_default := false; ns_artifact := "";
     node_count := Some (CInt n); core_count := Some (CInt c);
     memory_mb := Some (CInt m); nic_count := Some (CInt nic);
     gpu_count := Some (CInt g); features := None; excluded_features := None |}.

(** ** Concrete inputs *)

(** A heap with three RDMA objects: two enabled and not disableable, one
    enabled and disableable; a requirement excluding the first, and
    capabilities offering one of them. *)
Definition rdma_store : store :=
  <[1%positive := mkFeature "RDMA" true false]>
  (<[2%positive := mkFeature "RDMA" true false]>
  (<[3%positive := mkFeature "RDMA" true true]> ∅)).

Definition rdma_req : NodeSpace :=
  mkNodeSpace ENVIRONMENTS_NODES_REQUIREMENT "" false ""
    (Some (CInt 1)) (Some (CInt 2)) (Some (CInt 1024)) (Some (CInt 1))
    (Some (CInt 0)) None (Some [1%positive]).

Definition rdma_cap (l : loc) : NodeSpace :=
  mkNodeSpace ENVIRONMENTS_NODES_REQUIREMENT "" false ""
    (Some (CInt 1)) (Some (CInt 4)) (Some (CInt 2048)) (Some (CInt 1))
    (Some (CInt 0)) (Some [l]) None.

Definition no_memory_cap : NodeSpace :=
  mkNodeSpace ENVIRONMENTS_NODES_REQUIREMENT "" false ""
    (Some (CInt 1)) (Some (CInt 4)) None (Some (CInt 1)) (Some (CInt 0)) None None.

(** Three requirement nodes and a single capability node. *)
Definition env_three : EnvironmentSpace :=
  mkEnvironmentSpace "subnet"
    [exact_node 1 2 1024 1 0; exact_node 1 4 1024 1 0; exact_node 1 8 1024 1 0].

Definition env_one : EnvironmentSpace :=
  mkEnvironmentSpace "subnet" [exact_node 1 4 2048 1 0].

Definition env_small : EnvironmentSpace :=
  mkEnvironmentSpace "subnet" [exact_node 2 4 512 1 0].

(** A requirement node that passes against [env_small], then two that fail. *)
Definition env_pass_fail : EnvironmentSpace :=
  mkEnvironmentSpace "subnet"
    [exact_node 1 2 512 1 0; exact_node 4 2 1024 1 0; exact_node 4 2 1024 1 0].

(** ** Views of [_generate_min_capability] *)

Definition disabled (f : Feature) : Feature :=
  mkFeature (f_name f) false (f_can_disable f).

(** The node_count value [_generate_min_capability] computes once it does
    not raise. *)
Definition gen_node_count (r c : NodeSpace) : option CountSpace :=
  match node_count r, node_count c with
  | Some (CInt _), Some (CInt b) => Some (CInt b)
  | _, _ => generate_min_capability_countspace (node_count r) (node_count c)
  end.

Definition gen_gpu_count (r c : NodeSpace) : option CountSpace :=
  if cs_truthy (gpu_count r) || cs_truthy (gpu_count c)
  then generate_min_capability_countspace (gpu_count r) (gpu_count c)
  else Some (CInt 0).

Definition gen_base_features (r : NodeSpace) : FeatureSet :=
  if set_truthy (features r) then set_update [] (from_option id [] (features r)) else [].

Definition gen_excluded_step (r : NodeSpace) (fs : FeatureSet) : M FeatureSet :=
  if set_truthy (excluded_features r)
  then add_excluded (from_option id [] (excluded_features r)) fs
  else ret fs.

Definition count_declared (a b : option CountSpace) : bool := cs_truthy a || cs_truthy b.

Definition no_counts_node : NodeSpace :=
  mkNodeSpace ENVIRONMENTS_NODES_REQUIREMENT "" false "" None None None None None
    None None.

Definition no_gpu_node : NodeSpace :=
  mkNodeSpace ENVIRONMENTS_NODES_REQUIREMENT "" false ""
    (Some (CInt 1)) (Some (CInt 2)) (Some (CInt 1024)) (Some (CInt 1)) None None None.

(** A heap whose RDMA object is already disabled. *)
Definition disabled_rdma_store : store :=
  <[1%positive := mkFeature "RDMA" false false]> ∅.

(** ** [NodeSpace.from_value] *)

(** [node.features = fs] *)
Definition ns_set_features (n : NodeSpace) (fs : option FeatureSet) : NodeSpace :=
  mkNodeSpace (ns_type n) (ns_name n) (ns_is_default n) (ns_artifact n)
    (node_count n) (core_count n) (memory_mb n) (nic_count n) (gpu_count n)
    fs (excluded_features n).

(** [node.excluded_features = fs] *)
Definition ns_set_excluded (n : NodeSpace) (fs : option FeatureSet) : NodeSpace :=
  mkNodeSpace (ns_type n) (ns_name n) (ns_is_default n) (ns_artifact n)
    (node_count n) (core_count n) (memory_mb n) (nic_count n) (gpu_count n)
    (features n) fs.

(** One pass of [for feature in value.features]: an enabled or disableable
    feature goes to [node.features], any other to [node.excluded_features];
    a falsy target set is first replaced by a new [SetSpace]. *)
Definition from_value_step (σ : store) (node : NodeSpace) (feature : loc) : NodeSpace :=
  let f := deref σ feature in
  if f_enabled f || f_can_disable f then
    let cur := if set_truthy (features node) then from_option id [] (features node) else [] in
    ns_set_features node (Some (set_add feature cur))
  else
    let cur := if set_truthy (excluded_features node)
               then from_option id [] (excluded_features node) else [] in
    ns_set_excluded node (Some (set_add feature cur)).

(** The loop only reads the [Feature] objects, so the heap is read once. *)
Definition NodeSpace_from_value (value : option NodeSpace) : M NodeSpace :=
  match value with
  | None => raise AssertionError   (* assert isinstance(value, NodeSpace) *)
  | Some v =>
      let node := NodeSpace_default in
      let node := mkNodeSpace (ns_type node) (ns_name node) (ns_is_default node)
                    (ns_artifact node) (node_count v) (core_count v) (memory_mb v)
                    (nic_count v) (gpu_count v) (features node)
                    (excluded_features node) in
      σ <- get ;;
      ret (if set_truthy (features v)
           then fold_left (from_value_step σ) (from_option id [] (features v)) node
           else node)
  end.

(** ** [EnvironmentSpace.from_value] *)

(** [constants.ENVIRONMENTS_SUBNET] (lisa/util/constants.py is not in the
    sources). *)
Definition ENVIRONMENTS_SUBNET : string := "subnet".

(** [EnvironmentSpace()] *)
Definition EnvironmentSpace_default : EnvironmentSpace :=
  mkEnvironmentSpace ENVIRONMENTS_SUBNET [].

(** [for value_capability in value.nodes: env.nodes.append(NodeSpace.from_value(value_capability))] *)
Fixpoint from_value_nodes (vs : list NodeSpace) (acc : list NodeSpace) : M (list NodeSpace) :=
  match vs with
  | [] => ret acc
  | value_capability :: rest =>
      n <- NodeSpace_from_value (Some value_capability) ;;
      from_value_nodes rest (acc ++ [n])
  end.

Definition EnvironmentSpace_from_value (value : option EnvironmentSpace)
  : M EnvironmentSpace :=
  match value with
  | None => raise AssertionError   (* assert isinstance(value, EnvironmentSpace) *)
  | Some v =>
      let env := EnvironmentSpace_default in
      let env := mkEnvironmentSpace (topology env) (nodes v) in
      match nodes v with
      | [] => ret env
      | _ => ns <- from_value_nodes (nodes v) [] ;;
             ret (mkEnvironmentSpace (topology env) ns)
      end
  end.

(** ** Python exceptions of the schema code outside the matching engine *)

Inductive pyexn :=
| PyExn (e : exn)
| KeyError
| AttributeError
| TypeError
| ValueError
| ValidationError.   (** marshmallow's; its message text is not modelled *)

Definition sbind {A B} (x : pyexn + A) (k : A -> pyexn + B) : pyexn + B :=
  match x with inl e => inl e | inr a => k a end.

(** Python truthiness of [str] and [int]. *)
Definition str_truthy (s : string) : bool := negb (String.eqb s "").

Definition int_truthy (z : Z) : bool := negb (z =? 0).

(** ** [RemoteNode.__post_init__]

    The [add_secret] calls (lisa/secret.py, not in the sources) only register
    strings to be masked in logs; they are not modelled. *)

Record RemoteNode := mkRemoteNode {
  rn_type : string;
  rn_name : string;
  rn_is_default : bool;
  address : string;
  port : Z;
  public_address : string;
  public_port : Z;
  username : string;
  password : string;
  private_key_file : string;
  rn_capability : NodeSpace;
}.

Definition rn_set_addresses (n : RemoteNode) (a pa : string) : RemoteNode :=
  mkRemoteNode (rn_type n) (rn_name n) (rn_is_default n) a (port n) pa
    (public_port n) (username n) (password n) (private_key_file n) (rn_capability n).

Definition rn_set_ports (n : RemoteNode) (p pp : Z) : RemoteNode :=
  mkRemoteNode (rn_type n) (rn_name n) (rn_is_default n) (address n) p
    (public_address n) pp (username n) (password n) (private_key_file n)
    (rn_capability n).

Definition rn_fill_address (self : RemoteNode) : pyexn + RemoteNode :=
  if negb (str_truthy (address self)) && negb (str_truthy (public_address self)) then
    inl (PyExn (LisaException "at least one of address and publicAddress need to be set"))
  else if negb (str_truthy (address self)) then
    inr (rn_set_addresses self (public_address self) (public_address self))
  else if negb (str_truthy (public_address self)) then
    inr (rn_set_addresses self (address self) (address self))
  else inr self.

Definition rn_fill_port (self : RemoteNode) : pyexn + RemoteNode :=
  if negb (int_truthy (port self)) && negb (int_truthy (public_port self)) then
    inl (PyExn (LisaException "at least one of port and publicPort need to be set"))
  else if negb (int_truthy (port self)) then
    inr (rn_set_ports self (public_port self) (public_port self))
  else if negb (int_truthy (public_port self)) then
    inr (rn_set_ports self (port self) (port self))
  else inr self.

Definition rn_check_credentials (self : RemoteNode) : pyexn + RemoteNode :=
  if negb (str_truthy (password self)) && negb (str_truthy (private_key_file self)) then
    inl (PyExn (LisaException "at least one of password and privateKeyFile need to be set"))
  else inr self.

Definition RemoteNode_post_init (self : RemoteNode) : pyexn + RemoteNode :=
  sbind (rn_fill_address self) (fun self =>
  sbind (rn_fill_port self) rn_check_credentials).

(** ** [ListableValidator] *)

(** The Python values a runbook field can hold here; [PBool] is a subclass
    of [int], as in Python. *)
#[warnings="-register-all"]
Inductive pyval :=
| PNone
| PBool (b : bool)
| PInt (z : Z)
| PStr (s : string)
| PList (xs : list pyval)
| PObj (cls : string).

(** The [value_type] argument: [int] or [str]. *)
Inductive pytype := TInt | TStr.

Definition isinstance (t : pytype) (v : pyval) : bool :=
  match t, v with
  | TInt, (PInt _ | PBool _) => true
  | TStr, PStr _ => true
  | _, _ => false
  end.

(** A marshmallow validator: it returns, or raises. *)
Definition validator := pyval -> option pyexn.

(** The integer value of an [int] (a [bool] is 0 or 1). *)
Definition py_int (v : pyval) : option Z :=
  match v with
  | PInt z => Some z
  | PBool b => Some (if b then 1 else 0)
  | _ => None
  end.

(** marshmallow's [validate.Range(min=lo, max=hi)] (both bounds inclusive,
    its default) on numbers; comparing anything else with an [int] raises
    [TypeError]. *)
Definition Range (lo hi : Z) : validator := fun v =>
  match py_int v with
  | Some z => if (lo <=? z) && (z <=? hi) then None else Some ValidationError
  | None => Some TypeError
  end.

Record ListableValidator := mkListableValidator {
  lv_value_type : pytype;
  lv_inner_validator : list validator;
  lv_error : string;
}.

(** [ListableValidator.default_message] *)
Definition lv_default_message : string := "".

(** The [value_validator] argument of the constructor. *)
Inductive validator_arg :=
| VANone
| VACallable (f : validator)
| VAList (fs : list validator)
| VAOther.

Definition ListableValidator_init (value_type : pytype) (value_validator : validator_arg)
  (error : string) : pyexn + ListableValidator :=
  let err := if str_truthy error then error else lv_default_message in
  match value_validator with
  | VANone => inr (mkListableValidator value_type [] err)
  | VACallable f => inr (mkListableValidator value_type [f] err)
  | VAList fs => inr (mkListableValidator value_type fs err)
  | VAOther => inl ValueError
  end.

(** [for validator in self._inner_validator: validator(value)] *)
Fixpoint run_validators (vs : list validator) (x : pyval) : option pyexn :=
  match vs with
  | [] => None
  | f :: rest => match f x with Some e => Some e | None => run_validators rest x end
  end.

Definition inner_checks (self : ListableValidator) (x : pyval) : option pyexn :=
  match lv_inner_validator self with
  | [] => None
  | vs => run_validators vs x
  end.

(** The [for value_item in value] loop, with its [assert isinstance]. *)
Fixpoint check_items (self : ListableValidator) (items : list pyval) : option pyexn :=
  match items with
  | [] => None
  | value_item :: rest =>
      if negb (isinstance (lv_value_type self) value_item) then Some (PyExn AssertionError)
      else match inner_checks self value_item with
           | Some e => Some e
           | None => check_items self rest
           end
  end.

Definition ListableValidator_call (self : ListableValidator) (value : pyval)
  : pyexn + pyval :=
  if isinstance (lv_value_type self) value then
    match inner_checks self value with Some e => inl e | None => inr value end
  else
    match value with
    | PList items =>
        match check_items self items with Some e => inl e | None => inr value end
    | PNone => inr value
    | _ => inl ValidationError
    end.

(** [Criteria.priority]'s validator:
    [ListableValidator(int, validate.Range(min=0, max=3))]. *)
Definition priority_validator : pyexn + ListableValidator :=
  ListableValidator_init TInt (VACallable (Range 0 3)) "".

(** [Criteria.tags]'s validator: [ListableValidator(str)]. *)
Definition tags_validator : pyexn + ListableValidator :=
  ListableValidator_init TStr VANone "".

(** ** [ExtendableSchemaMixin.get_extended_runbook]

    Inside the class body [self.__extended_runbook] is name-mangled to
    [self._ExtendableSchemaMixin__extended_runbook]; the string given to
    [hasattr] is not. *)

Section ExtendedRunbook.

(** Raw runbook data and the loaded runbook type [T]. *)
Context {J T : Type}.

(** [runbook_type.schema().load] *)
Variable load : J -> pyexn + T.

(** [issubclass(runbook_type, DataClassJsonMixin)] *)
Variable is_json_mixin : bool.

Record SchemaObject := mkSchemaObject {
  extend_schemas : option (gmap string J);   (** the [CatchAll] field *)
  type_attr : option string;                  (** [getattr(self, constants.TYPE)], if any *)
  obj_attrs : gmap string (option T);         (** attributes set at run time *)
}.

Definition mangled_extended_runbook : string := "_ExtendableSchemaMixin__extended_runbook".

Definition get_extended_runbook (self : SchemaObject) (field_name : string)
  : pyexn + (option T * SchemaObject) :=
  let compute :=
    if negb is_json_mixin then inl (PyExn AssertionError) else
    sbind (if str_truthy field_name then inr field_name
           else match type_attr self with
                | Some t => inr t
                | None => inl (PyExn AssertionError)
                end) (fun field_name =>
    sbind (match extend_schemas self with
           | Some d =>
               if bool_decide (d <> ∅) then
                 match d !! field_name with
                 | Some j => sbind (load j) (fun x => inr (Some x))
                 | None => inr None
                 end
               else inr None
           | None => inr None
           end) (fun v =>
    inr (mkSchemaObject (extend_schemas self) (type_attr self)
           (<[mangled_extended_runbook := v]> (obj_attrs self))))) in
  sbind (if bool_decide (is_Some (obj_attrs self !! "__extended_runbook"))
         then inr self else compute) (fun self =>
  match obj_attrs self !! mangled_extended_runbook with
  | Some v => inr (v, self)
  | None => inl AttributeError
  end).

End ExtendedRunbook.

(** ** [Platform.__post_init__]

    As for [RemoteNode], the [add_secret] calls are not modelled. *)

(** [constants.PLATFORM_READY] (lisa/util/constants.py is not in the sources). *)
Definition PLATFORM_READY : string := "ready".

Record Platform := mkPlatform {
  pl_type : string;
  admin_username : string;
  admin_password : string;
  admin_private_key_file : string;
  reserve_environment : bool;
}.

Definition Platform_post_init (self : Platform) : pyexn + Platform :=
  if negb (String.eqb (pl_type self) PLATFORM_READY) then
    if str_truthy (admin_password self) && str_truthy (admin_private_key_file self) then
      inl (PyExn (LisaException
        "only one of admin_password and admin_private_key_file can be set"))
    else if negb (str_truthy (admin_password self)) &&
            negb (str_truthy (admin_private_key_file self)) then
      inl (PyExn (LisaException
        "one of admin_password and admin_private_key_file must be set"))
    else inr self
  else inr self.

(** ** [Environment.__post_init__] *)

(** [constants.ENVIRONMENTS_NODES_LOCAL] and [constants.ENVIRONMENTS_NODES_REMOTE]
    (lisa/util/constants.py is not in the sources). *)
Definition ENVIRONMENTS_NODES_LOCAL : string := "local".

Definition ENVIRONMENTS_NODES_REMOTE : string := "remote".

Record LocalNode := mkLocalNode {
  ln_type : string;
  ln_name : string;
  ln_is_default : bool;
  ln_capability : NodeSpace;
}.

(** [Union[LocalNode, RemoteNode]] *)
Inductive Node := NLocal (n : LocalNode) | NRemote (n : RemoteNode).

Definition node_capability (n : Node) : NodeSpace :=
  match n with NLocal l => ln_capability l | NRemote r => rn_capability r end.

Section EnvironmentPostInit.

(** A raw node entry of the runbook. *)
Context {Raw : Type}.

(** [node_raw[constants.TYPE]]; [None] when the key is missing. *)
Variable raw_type : Raw -> option string.
(** [f"{node_raw}"] *)
Variable raw_repr : Raw -> string.
(** [LocalNode.schema().load], [RemoteNode.schema().load] and
    [NodeSpace.schema().load]. *)
Variable load_local : Raw -> pyexn + LocalNode.
Variable load_remote : Raw -> pyexn + RemoteNode.
Variable load_requirement : Raw -> pyexn + NodeSpace.

Record Environment := mkEnvironment {
  env_name : string;
  env_topology : string;
  nodes_raw : option (list Raw);
  nodes_requirement : option (list NodeSpace);
  env_capability : EnvironmentSpace;
  env_nodes : option (list Node);   (** [self.nodes], set in [__post_init__] *)
}.

Definition env_add_node (self : Environment) (node : Node) : Environment :=
  let ns := match env_nodes self with None => [] | Some l => l end in
  mkEnvironment (env_name self) (env_topology self) (nodes_raw self)
    (nodes_requirement self)
    (mkEnvironmentSpace (topology (env_capability self))
       (nodes (env_capability self) ++ [node_capability node]))
    (Some (ns ++ [node])).

Definition env_add_requirement (self : Environment) (req : NodeSpace) : Environment :=
  let rs := match nodes_requirement self with None => [] | Some l => l end in
  mkEnvironment (env_name self) (env_topology self) (nodes_raw self) (Some (rs ++ [req]))
    (mkEnvironmentSpace (topology (env_capability self))
       (nodes (env_capability self) ++ [req]))
    (env_nodes self).

Fixpoint env_load_nodes (raws : list Raw) (self : Environment) : pyexn + Environment :=
  match raws with
  | [] => inr self
  | node_raw :: rest =>
      match raw_type node_raw with
      | None => inl KeyError
      | Some node_type =>
          if String.eqb node_type ENVIRONMENTS_NODES_LOCAL then
            sbind (load_local node_raw) (fun node =>
            env_load_nodes rest (env_add_node self (NLocal node)))
          else if String.eqb node_type ENVIRONMENTS_NODES_REMOTE then
            sbind (load_remote node_raw) (fun node =>
            env_load_nodes rest (env_add_node self (NRemote node)))
          else if String.eqb node_type ENVIRONMENTS_NODES_REQUIREMENT then
            sbind (load_requirement node_raw) (fun node_requirement =>
            env_load_nodes rest (env_add_requirement self node_requirement))
          else
            inl (PyExn (LisaException ("unknown node type '" +:+ node_type +:+ "': "
                                       +:+ raw_repr node_raw)))
      end
  end.

Definition Environment_post_init (self : Environment) : pyexn + Environment :=
  let self := mkEnvironment (env_name self) (env_topology self) (nodes_raw self)
                (nodes_requirement self) (env_capability self) None in
  match nodes_raw self with
  | None => inr self
  | Some raws =>
      let self := mkEnvironment (env_name self) (env_topology self) (nodes_raw self)
                    (nodes_requirement self)
                    (mkEnvironmentSpace (env_topology self) (nodes (env_capability self)))
                    (Some []) in
      sbind (env_load_nodes raws self) (fun self =>
      inr (mkEnvironment (env_name self) (env_topology self) None
             (nodes_requirement self) (env_capability self) (env_nodes self)))
  end.

(** What one raw entry loads to. *)
Inductive loaded := LNode (n : Node) | LRequirement (r : NodeSpace).

Definition load_one (node_raw : Raw) : pyexn + loaded :=
  match raw_type node_raw with
  | Some t =>
      if String.eqb t ENVIRONMENTS_NODES_LOCAL then
        sbind (load_local node_raw) (fun n => inr (LNode (NLocal n)))
      else if String.eqb t ENVIRONMENTS_NODES_REMOTE then
        sbind (load_remote node_raw) (fun n => inr (LNode (NRemote n)))
      else if String.eqb t ENVIRONMENTS_NODES_REQUIREMENT then
        sbind (load_requirement node_raw) (fun n => inr (LRequirement n))
      else inl ValueError
  | None => inl KeyError
  end.

End EnvironmentPostInit.

Definition loaded_capability (x : loaded) : NodeSpace :=
  match x with LNode n => node_capability n | LRequirement r => r end.

Definition loaded_node (x : loaded) : list Node :=
  match x with LNode n => [n] | LRequirement _ => [] end.

Definition loaded_requirement (x : loaded) : list NodeSpace :=
  match x with LNode _ => [] | LRequirement r => [r] end.

(** The list [l] appended to an optional list that is created on the first append. *)
Definition opt_extend {A : Type} (o : option (list A)) (l : list A) : option (list A) :=
  match l with [] => o | _ :: _ => Some (from_option id [] o ++ l) end.

(** The [NodeSpace] with its two feature sets cleared. *)
Definition strip (n : NodeSpace) : NodeSpace := ns_set_excluded (ns_set_features n None) None.

(** ** Views of [from_value] *)

(** The feature objects [from_value] keeps in [features]. *)
Definition keeps (σ : store) (l : loc) : bool :=
  f_enabled (deref σ l) || f_can_disable (deref σ l).

Definition set_elems (s : option FeatureSet) : FeatureSet := from_option id [] s.

(** [Criteria.priority] values [Range(0, 3)] accepts. *)
Definition priority_ok (v : pyval) : Prop :=
  match v with
  | PInt z => 0 <= z <= 3
  | PBool _ => True
  | _ => False
  end.

(** The values a [ListableValidator] lets through. *)
Definition item_ok (self : ListableValidator) (x : pyval) : Prop :=
  isinstance (lv_value_type self) x = true /\
  Forall (fun f => f x = None) (lv_inner_validator self).

Definition lv_accepts (self : ListableValidator) (v : pyval) : Prop :=
  v = PNone \/ item_ok self v \/ exists xs, v = PList xs /\ Forall (item_ok self) xs.

(** ** Views of [Environment.__post_init__] *)

Definition env_step {Raw : Type} (self : @Environment Raw) (x : loaded) : Environment :=
  match x with
  | LNode n => env_add_node self n
  | LRequirement q => env_add_requirement self q
  end.

Definition env_result {Raw : Type} (self : @Environment Raw) (xs : list loaded) : Environment :=
  mkEnvironment (env_name self) (env_topology self) (nodes_raw self)
    (opt_extend (nodes_requirement self) (concat (map loaded_requirement xs)))
    (mkEnvironmentSpace (topology (env_capability self))
       (nodes (env_capability self) ++ map loaded_capability xs))
    (opt_extend (env_nodes self) (concat (map loaded_node xs))).

(** ** Inputs of the further properties *)

(** [rdma_store] with a fourth object, an SR-IOV feature that is disabled and
    cannot be disabled, and a capability offering it next to an RDMA one:
    [from_value] keeps the RDMA feature and excludes the SR-IOV one. *)
Definition sriov_store : store := <[4%positive := mkFeature "SRIOV" false false]> rdma_store.

Definition sriov_cap : NodeSpace :=
  ns_set_features (rdma_cap 1%positive) (Some [1%positive; 4%positive]).

(** A remote node with a private address, a port and a key file only. *)
Definition ssh_node : RemoteNode :=
  mkRemoteNode "remote" "" false "10.0.0.4" 22 "" 0 "lisa" "" "id_rsa"
    (exact_node 1 4 2048 1 0).

(** An object whose extension data holds a [custom] runbook. *)
Definition runbook_object : @SchemaObject nat nat :=
  mkSchemaObject (Some {[ "custom" := 5%nat ]}) None ∅.

(** Raw node entries given by their type name. *)
Definition string_raw_type (s : string) : option string := Some s.

Definition gpu_environment : @Environment string :=
  mkEnvironment "" "subnet" (Some ["local"; "gpu"]) None env_one None.

(** A remote entry whose load fails with [ValueError], before an unknown one. *)
Definition remote_environment : @Environment string :=
  mkEnvironment "" "subnet" (Some ["local"; "remote"; "gpu"]) None env_one None.

(** ** Lemmas and claims *)

Lemma NodeSpace_check_Some_eq (r c : NodeSpace) (σ : store) :
  NodeSpace_check r (Some c) σ =
  (inr (merge_all (node_base r c) (node_field_checks r c σ)), σ).
Proof.
  unfold NodeSpace_check, node_base, node_field_checks, node_count_exact,
    must_include, merge_all, node_guard_failed.
  unfold bind, ret, get, read_opt_features, read_features.
  destruct (node_count r) as [[]|], (node_count c) as [[]|];
  destruct (features c) as [[]|], (excluded_features r) as [[]|],
    (features r); reflexivity.
Qed.

Lemma NodeSpace_check_None (r : NodeSpace) (σ : store) :
  NodeSpace_check r None σ = (inl AssertionError, σ).
Proof. reflexivity. Qed.

Lemma named_reasons_app (name : string) (xs ys : list reason) :
  named_reasons name (xs ++ ys) = named_reasons name xs ++ named_reasons name ys.
Proof.
  induction xs as [|x xs IH]; [done|].
  destruct x; simpl; rewrite ?IH; try done.
  destruct (String.eqb _ _); simpl; congruence.
Qed.

Lemma named_reasons_map (name n : string) (xs : list reason) :
  named_reasons name (map (RNamed n) xs) = if String.eqb n name then xs else [].
Proof.
  induction xs as [|x xs IH]; simpl.
  - by destruct (String.eqb n name).
  - rewrite IH. by destruct (String.eqb n name).
Qed.

Lemma node_count_less_app (xs ys : list reason) :
  node_count_less_reasons (xs ++ ys) =
  node_count_less_reasons xs ++ node_count_less_reasons ys.
Proof. unfold node_count_less_reasons. apply List.filter_app. Qed.

Lemma node_count_less_map (n : string) (xs : list reason) :
  node_count_less_reasons (map (RNamed n) xs) = [].
Proof. induction xs; simpl; done. Qed.

Lemma merge_all_reasons (base : ResultReason) (subs : list (string * ResultReason)) :
  reasons (merge_all base subs) = reasons base ++ merged_reasons subs.
Proof.
  unfold merge_all, merged_reasons.
  revert base; induction subs as [|[n s] subs IH]; intros base; simpl.
  - by rewrite app_nil_r.
  - rewrite IH. simpl. by rewrite app_assoc.
Qed.

Lemma merge_all_verdict (base : ResultReason) (subs : list (string * ResultReason)) :
  rr_verdict (merge_all base subs) =
  rr_verdict base && forallb (fun p => rr_verdict (snd p)) subs.
Proof.
  unfold merge_all.
  revert base; induction subs as [|[n s] subs IH]; intros base; simpl.
  - by rewrite andb_true_r.
  - rewrite IH. unfold rr_verdict; simpl. by rewrite andb_assoc.
Qed.

Lemma node_count_less_merged (subs : list (string * ResultReason)) :
  node_count_less_reasons (merged_reasons subs) = [].
Proof.
  unfold merged_reasons.
  induction subs as [|p subs IH]; simpl; [done|].
  by rewrite node_count_less_app, node_count_less_map, IH.
Qed.

Lemma named_merged (F : string) (sub : ResultReason)
    (subs : list (string * ResultReason)) :
  NoDup (map fst subs) -> (F, sub) ∈ subs ->
  named_reasons F (merged_reasons subs) = reasons sub.
Proof.
  unfold merged_reasons.
  induction subs as [|[n s] subs IH]; intros Hnd Hin; simpl.
  - by apply not_elem_of_nil in Hin.
  - rewrite named_reasons_app, named_reasons_map.
    simpl in Hnd. apply NoDup_cons in Hnd as [Hn Hnd].
    apply elem_of_cons in Hin as [Heq | Hin].
    + injection Heq as <- <-. rewrite String.eqb_refl.
      assert (Hnone : forall t, (F, t) ∉ subs).
      { intros t Ht. apply Hn. apply (list_elem_of_fmap_2 fst) in Ht. exact Ht. }
      clear IH Hnd Hn.
      induction subs as [|[m u] subs IH']; simpl; [by rewrite app_nil_r|].
      rewrite named_reasons_app, named_reasons_map.
      destruct (String.eqb_spec m F) as [->|_].
      * exfalso. apply (Hnone u). left.
      * apply IH'. intros t Ht. apply (Hnone t). by right.
    + rewrite IH by done.
      destruct (String.eqb_spec n F) as [->|_]; [|done].
      exfalso. apply Hn. apply (list_elem_of_fmap_2 fst) in Hin. exact Hin.
Qed.

Lemma named_base (F : string) (r c : NodeSpace) :
  named_reasons F (reasons (node_base r c)) = [].
Proof.
  unfold node_base.
  destruct (node_guard_failed c), (node_count_exact r c) as [[a b]|];
    try destruct (b <? a); reflexivity.
Qed.

Lemma node_field_checks_NoDup (r c : NodeSpace) (σ : store) :
  NoDup (map fst (node_field_checks r c σ)).
Proof.
  unfold node_field_checks.
  destruct (node_count_exact r c), (features r), (excluded_features r);
    simpl; repeat constructor; set_solver.
Qed.

Lemma filter_merged (p : reason -> bool) (subs : list (string * ResultReason)) :
  (forall n y, p (RNamed n y) = false) ->
  List.filter p (merged_reasons subs) = [].
Proof.
  intros Hp. unfold merged_reasons.
  induction subs as [|[n s] subs IH]; simpl; [done|].
  rewrite List.filter_app, IH, app_nil_r.
  induction (reasons s) as [|x xs IHx]; simpl; [done|]. by rewrite Hp.
Qed.

Lemma check_countspace_single (a b : option CountSpace) :
  single_reason (check_countspace a b).
Proof.
  unfold check_countspace.
  destruct a as [[]|], b as [[]|]; try (left; done);
    repeat case_match; (left; done) || (right; eexists; done).
Qed.

Lemma check_allow_set_single (rq : list Feature) (cp : option (list Feature)) :
  single_reason (check_allow_set rq cp).
Proof.
  unfold check_allow_set. repeat case_match; (left; done) || (right; eexists; done).
Qed.

Lemma check_deny_set_single (rq : list Feature) (m : option (list Feature)) :
  single_reason (check_deny_set rq m).
Proof.
  unfold check_deny_set. repeat case_match; (left; done) || (right; eexists; done).
Qed.

Lemma single_reason_verdict (sub : ResultReason) :
  single_reason sub -> (rr_verdict sub = false <-> length (reasons sub) = 1%nat).
Proof. intros [-> | [x ->]]; simpl; split; done. Qed.

Lemma node_field_checks_single (r c : NodeSpace) (σ : store) F sub :
  (F, sub) ∈ node_field_checks r c σ -> single_reason sub.
Proof.
  unfold node_field_checks. intros Hin.
  repeat rewrite elem_of_app in Hin.
  destruct (node_count_exact r c), (features r), (excluded_features r);
    repeat match goal with
    | H : _ \/ _ |- _ => destruct H
    | H : _ ∈ [] |- _ => by apply not_elem_of_nil in H
    | H : _ ∈ _ :: _ |- _ => apply elem_of_cons in H
    | H : (_, _) = (_, _) |- _ => injection H as -> ->
    end;
    auto using check_countspace_single, check_allow_set_single,
      check_deny_set_single.
Qed.

Lemma node_check_fields (r c : NodeSpace) (σ : store) :
  exists res, NodeSpace_check r (Some c) σ = (inr res, σ) /\
    rr_verdict res = negb (node_guard_failed c) && node_count_verdict r c
                     && forallb (fun p => rr_verdict (snd p)) (node_field_checks r c σ) /\
    (forall F sub, (F, sub) ∈ node_field_checks r c σ ->
       named_reasons F (reasons res) = reasons sub) /\
    node_count_less_reasons (reasons res) = node_count_failure r c /\
    List.filter is_counts_none (reasons res) =
      (if node_guard_failed c then [RCountsNone] else []).
Proof.
  eexists; split; [apply NodeSpace_check_Some_eq|].
  rewrite merge_all_verdict, merge_all_reasons.
  split; [|split; [|split]].
  - f_equal. unfold node_base, node_count_verdict.
    destruct (node_guard_failed c), (node_count_exact r c) as [[a b]|]; simpl;
      try reflexivity; destruct (Z.ltb_spec b a), (Z.leb_spec a b); simpl;
      reflexivity || lia.
  - intros F sub Hin.
    rewrite named_reasons_app, named_base, (named_merged F sub); try done.
    apply node_field_checks_NoDup.
  - rewrite node_count_less_app, node_count_less_merged, app_nil_r.
    unfold node_base, node_count_failure.
    destruct (node_guard_failed c), (node_count_exact r c) as [[a b]|];
      try destruct (b <? a); reflexivity.
  - rewrite List.filter_app, filter_merged, app_nil_r by done.
    unfold node_base.
    destruct (node_guard_failed c), (node_count_exact r c) as [[a b]|];
      try destruct (b <? a); reflexivity.
Qed.

Lemma named_merged_absent (F : string) (subs : list (string * ResultReason)) :
  F ∉ map fst subs -> named_reasons F (merged_reasons subs) = [].
Proof.
  unfold merged_reasons.
  induction subs as [|[n s] subs IH]; intros Hn; simpl; [done|].
  rewrite named_reasons_app, named_reasons_map.
  destruct (String.eqb_spec n F) as [->|_].
  - exfalso. apply Hn. left.
  - apply IH. intros Hin. apply Hn. by right.
Qed.

Lemma filter_none {A} (p : A -> bool) (l : list A) :
  (forall x, x ∈ l -> p x = false) -> List.filter p l = [].
Proof.
  induction l as [|x l IH]; intros H; simpl; [done|].
  rewrite H by left. apply IH. intros y Hy. apply H. by right.
Qed.

(** C1: when the requirement's and the capability's node_count are both
    exact integers, [NodeSpace.check] records the (unprefixed) node_count
    failure exactly when the capability's count is smaller, and then fails;
    a larger capability count passes.  Otherwise the node_count comparison is
    the count-space resolver's, merged under the prefix "node_count". *)
Theorem NodeSpace_check_node_count (r c : NodeSpace) (σ : store) :
  (forall rq cp, node_count r = Some (CInt rq) -> node_count c = Some (CInt cp) ->
     exists res, NodeSpace_check r (Some c) σ = (inr res, σ) /\
       node_count_less_reasons (reasons res) =
         (if cp <? rq then [RNodeCountLess cp rq] else []) /\
       named_reasons "node_count" (reasons res) = [] /\
       (cp < rq -> rr_verdict res = false)) /\
  ((~ exists rq cp, node_count r = Some (CInt rq) /\ node_count c = Some (CInt cp)) ->
     exists res, NodeSpace_check r (Some c) σ = (inr res, σ) /\
       node_count_less_reasons (reasons res) = [] /\
       named_reasons "node_count" (reasons res) =
         reasons (check_countspace (node_count r) (node_count c)) /\
       (rr_verdict (check_countspace (node_count r) (node_count c)) = false ->
        rr_verdict res = false)).
Proof.
  destruct (node_check_fields r c σ) as (res & Hc & Hv & Hn & Hl & _).
  split.
  - intros rq cp Hr Hcp.
    assert (Hex : node_count_exact r c = Some (rq, cp))
      by (unfold node_count_exact; by rewrite Hr, Hcp).
    exists res. split; [done|]. split; [|split].
    + rewrite Hl. unfold node_count_failure. by rewrite Hex.
    + rewrite NodeSpace_check_Some_eq in Hc. injection Hc as <-.
      rewrite merge_all_reasons, named_reasons_app, named_base,
        named_merged_absent; [done|].
      unfold node_field_checks. rewrite Hex.
      destruct (features r), (excluded_features r); simpl; set_solver.
    + intros Hlt. rewrite Hv. unfold node_count_verdict. rewrite Hex.
      replace (rq <=? cp) with false by lia. by rewrite andb_false_r.
  - intros Hnot.
    assert (Hex : node_count_exact r c = None).
    { unfold node_count_exact.
      destruct (node_count r) as [[]|], (node_count c) as [[]|]; try done.
      exfalso. apply Hnot. eauto. }
    assert (Hin : ("node_count", check_countspace (node_count r) (node_count c))
                  ∈ node_field_checks r c σ).
    { unfold node_field_checks. rewrite Hex. left. }
    exists res. split; [done|]. split; [|split].
    + rewrite Hl. unfold node_count_failure. by rewrite Hex.
    + by apply Hn.
    + intros Hf. rewrite Hv.
      assert (forallb (fun p => rr_verdict (snd p)) (node_field_checks r c σ) = false)
        as ->; [|by rewrite andb_false_r].
      apply not_true_iff_false. intros Hall.
      pose proof (proj1 (forallb_forall _ _) Hall _
                    (proj1 (list_elem_of_In _ _) Hin)) as Hs.
      simpl in Hs. congruence.
Qed.

(** C2: when the requirement declares a non-empty excluded_features set,
    the reasons [NodeSpace.check] records under "excluded_features" are those
    of the deny check against the must-include set (the capability's features
    that are enabled and cannot be disabled); if every capability feature
    named in the exclusion is disabled or can be disabled, the exclusion
    passes and records nothing. *)
Theorem NodeSpace_check_excluded_must_include (r c : NodeSpace) (σ : store)
    (ex : FeatureSet) :
  excluded_features r = Some ex -> ex <> [] ->
  exists res, NodeSpace_check r (Some c) σ = (inr res, σ) /\
    named_reasons "excluded_features" (reasons res) =
      reasons (check_deny_set (map (deref σ) ex) (Some (must_include σ c))) /\
    (rr_verdict (check_deny_set (map (deref σ) ex) (Some (must_include σ c))) = false ->
     rr_verdict res = false) /\
    ((forall f, f ∈ map (deref σ) (from_option id [] (features c)) ->
        f_name f ∈ names (map (deref σ) ex) -> f_enabled f = true ->
        f_can_disable f = true) ->
     check_deny_set (map (deref σ) ex) (Some (must_include σ c)) = rr_new /\
     named_reasons "excluded_features" (reasons res) = []).
Proof.
  intros Hex _.
  destruct (node_check_fields r c σ) as (res & Hc & Hv & Hn & _).
  assert (Hin : ("excluded_features",
                 check_deny_set (map (deref σ) ex) (Some (must_include σ c)))
                ∈ node_field_checks r c σ).
  { unfold node_field_checks. rewrite Hex. set_solver. }
  exists res. split; [done|].
  assert (Hnr := Hn _ _ Hin).
  split; [done|]. split.
  - intros Hf. rewrite Hv.
    assert (forallb (fun p => rr_verdict (snd p)) (node_field_checks r c σ) = false)
      as ->; [|by rewrite andb_false_r].
    apply not_true_iff_false. intros Hall.
    pose proof (proj1 (forallb_forall _ _) Hall _
                  (proj1 (list_elem_of_In _ _) Hin)) as Hs.
    simpl in Hs. congruence.
  - intros Hdis.
    assert (Hd : check_deny_set (map (deref σ) ex) (Some (must_include σ c)) = rr_new).
    { unfold check_deny_set. simpl.
      rewrite filter_none; [done|].
      intros n Hn'. apply bool_decide_eq_false_2.
      intros Hm. unfold names, must_include in Hm.
      apply list_elem_of_fmap_1 in Hm as (f & -> & Hf).
      apply list_elem_of_In, filter_In in Hf as [Hf Hp].
      apply list_elem_of_In in Hf.
      apply andb_prop in Hp as [He Hcd].
      rewrite (Hdis f Hf Hn' He) in Hcd. discriminate. }
    split; [done|]. by rewrite Hnr, Hd.
Qed.

(** C2 witness: a requirement excluding RDMA against a capability offering
    RDMA as enabled and disableable: the exclusion records nothing. *)
Lemma NodeSpace_check_excluded_must_include_witness :
  exists res, NodeSpace_check rdma_req (Some (rdma_cap 3%positive)) rdma_store
                = (inr res, rdma_store) /\
    named_reasons "excluded_features" (reasons res) = [].
Proof.
  destruct (NodeSpace_check_excluded_must_include rdma_req (rdma_cap 3%positive)
              rdma_store [1%positive] eq_refl ltac:(discriminate))
    as (res & Hc & _ & _ & Hdis).
  exists res. split; [exact Hc|].
  apply Hdis. intros f Hf _ _. simpl in Hf.
  apply elem_of_cons in Hf as [-> | Hf]; [reflexivity|].
  apply not_elem_of_nil in Hf. destruct Hf.
Defined.

(** C5 (as amended): for a non-null capability [NodeSpace.check] never
    raises and leaves the heap alone; it evaluates every field: the verdict is
    the AND of the guard, the exact-integer node_count comparison and every
    merged sub-check (node_count when not both exact, core_count, memory_mb,
    nic_count, gpu_count, features when declared, excluded_features when
    declared); each merged sub-check's reasons appear under its field name,
    one reason exactly when it fails; the exact-integer node_count failure is
    recorded without a field prefix. *)
Theorem NodeSpace_check_all_fields (r c : NodeSpace) (σ : store) :
  exists res, NodeSpace_check r (Some c) σ = (inr res, σ) /\
    rr_verdict res = negb (node_guard_failed c) && node_count_verdict r c
                     && forallb (fun p => rr_verdict (snd p)) (node_field_checks r c σ) /\
    (forall F sub, (F, sub) ∈ node_field_checks r c σ ->
       named_reasons F (reasons res) = reasons sub /\
       (rr_verdict sub = false <-> length (reasons sub) = 1%nat)) /\
    node_count_less_reasons (reasons res) = node_count_failure r c.
Proof.
  destruct (node_check_fields r c σ) as (res & Hc & Hv & Hn & Hl & _).
  exists res. split; [done|]. split; [done|]. split; [|done].
  intros F sub Hin. split; [by apply Hn|].
  apply single_reason_verdict. by eapply node_field_checks_single.
Qed.

(** C5 counterexample: requirement node_count 4 against capability 2, the
    other fields satisfied: node_count fails, and its only reason carries no
    field prefix. *)
Lemma NodeSpace_check_all_fields_counterexample :
  NodeSpace_check (exact_node 4 2 1024 1 0) (Some (exact_node 2 4 2048 1 0)) ∅
    = (inr (mkRR false [RNodeCountLess 2 4]), ∅) /\
  forallb is_named [RNodeCountLess 2 4] = false.
Proof. split; reflexivity. Qed.

(** C7 (as amended): a [None] capability raises (the assertion after the
    reason is added); a capability whose node_count, core_count, memory_mb or
    nic_count is absent (or 0) gets the single guard reason, the remaining
    field checks still run, and the verdict is false, without raising. *)
Theorem NodeSpace_check_guards (r : NodeSpace) (σ : store) :
  NodeSpace_check r None σ = (inl AssertionError, σ) /\
  forall c : NodeSpace,
    cs_truthy (node_count c) = false \/ cs_truthy (core_count c) = false \/
    cs_truthy (memory_mb c) = false \/ cs_truthy (nic_count c) = false ->
    exists res, NodeSpace_check r (Some c) σ = (inr res, σ) /\
      rr_verdict res = false /\
      List.filter is_counts_none (reasons res) = [RCountsNone] /\
      (forall F sub, (F, sub) ∈ node_field_checks r c σ ->
         named_reasons F (reasons res) = reasons sub) /\
      node_count_less_reasons (reasons res) = node_count_failure r c.
Proof.
  split; [apply NodeSpace_check_None|].
  intros c Hg.
  assert (Hgf : node_guard_failed c = true).
  { unfold node_guard_failed.
    destruct Hg as [-> | [-> | [-> | ->]]]; simpl; by rewrite ?orb_true_r. }
  destruct (node_check_fields r c σ) as (res & Hc & Hv & Hn & Hl & Hcn).
  exists res. split; [done|]. split; [by rewrite Hv, Hgf|].
  split; [by rewrite Hcn, Hgf|]. done.
Qed.

(** C7 witness: a capability without memory_mb gets the guard reason. *)
Lemma NodeSpace_check_guards_witness :
  exists res, NodeSpace_check (exact_node 1 2 1024 1 0)
                (Some no_memory_cap) ∅
              = (inr res, ∅) /\
    rr_verdict res = false /\ List.filter is_counts_none (reasons res) = [RCountsNone].
Proof.
  destruct (proj2 (NodeSpace_check_guards (exact_node 1 2 1024 1 0) ∅)
              no_memory_cap
              ltac:(right; right; left; reflexivity))
    as (res & Hc & Hv & Hcn & _).
  exists res. split; [exact Hc|]. split; [exact Hv | exact Hcn].
Defined.

(** C7 counterexample: [NodeSpace.check] on a [None] capability raises. *)
Lemma NodeSpace_check_guards_counterexample :
  NodeSpace_check NodeSpace_default None ∅ = (inl AssertionError, ∅).
Proof. reflexivity. Qed.

Lemma pretty_zero : pretty 0%nat = "0".
Proof. reflexivity. Qed.

Lemma nth_error_drop {A} (l : list A) (i : nat) :
  nth_error l i = hd_error (drop i l) /\ drop (S i) l = tail (drop i l).
Proof.
  revert i; induction l as [|x l IH]; intros [|i]; simpl; try done.
Qed.

Lemma bind_ret_r {A} (m : M A) (σ : store) : bind m ret σ = m σ.
Proof. unfold bind. by destruct (m σ) as [[e|a] σ']. Qed.

(** With a single capability node, every requirement node is checked
    against it. *)
Lemma env_loop_broadcast (c0 : NodeSpace) (reqs : list NodeSpace) :
  forall index result σ,
  env_loop reqs [c0] index result σ =
  env_fold (map (fun r => (r, c0)) reqs) index result σ.
Proof.
  induction reqs as [|r rest IH]; intros index result σ; [done|].
  cbn -[NodeSpace_check merge pretty rr_verdict]. unfold bind, pick_cap, ret.
  cbn -[NodeSpace_check merge pretty rr_verdict].
  destruct (NodeSpace_check r (Some c0) σ) as [[e|sub] σ']; [done|].
  destruct (negb (rr_verdict (merge result sub (pretty index)))); [done|].
  apply IH.
Qed.

(** Otherwise node [index] is checked against [capability.nodes[index]];
    past the capability's last node the loop raises [IndexError], unless a
    node failed before. *)
Lemma env_loop_pairwise (capnodes : list NodeSpace) :
  length capnodes <> 1%nat ->
  forall reqs index result σ, rr_verdict result = true ->
  env_loop reqs capnodes index result σ =
  bind (env_fold (zip reqs (drop index capnodes)) index result)
       (fun res => if (length (drop index capnodes) <? length reqs)%nat && rr_verdict res
                   then raise IndexError else ret res) σ.
Proof.
  intros Hlen reqs.
  induction reqs as [|r rest IH]; intros index result σ Hv.
  - unfold bind, ret. cbn. by destruct (drop index capnodes).
  - destruct (nth_error_drop capnodes index) as [Hnth Hdrop].
    cbn [env_loop]. unfold pick_cap.
    replace (Nat.eqb (length capnodes) 1) with false
      by (symmetry; by apply Nat.eqb_neq).
    rewrite Hnth.
    destruct (drop index capnodes) as [|c d] eqn:Ed.
    + cbn -[NodeSpace_check merge pretty rr_verdict].
      unfold bind, raise, ret. by rewrite Hv.
    + cbn -[NodeSpace_check merge pretty rr_verdict env_fold bind].
      cbn [env_fold zip zip_with]. unfold bind at 1 2 3 4.
      unfold ret at 1.
      destruct (NodeSpace_check r (Some c) σ) as [[e|sub] σ']; [done|].
      destruct (rr_verdict (merge result sub (pretty index))) eqn:Hm;
        cbn -[NodeSpace_check merge pretty rr_verdict env_fold].
      * rewrite IH by done. rewrite Hdrop. reflexivity.
      * unfold ret. by rewrite Hm, andb_false_r.
Qed.

(** [NodeSpace.check] and [EnvironmentSpace.check] only read the heap. *)
Lemma NodeSpace_check_store (r : NodeSpace) (c : option NodeSpace) (σ : store) :
  snd (NodeSpace_check r c σ) = σ.
Proof.
  destruct c as [c|].
  - by rewrite NodeSpace_check_Some_eq.
  - by rewrite NodeSpace_check_None.
Qed.

Lemma env_loop_store (reqs capnodes : list NodeSpace) :
  forall index result σ, snd (env_loop reqs capnodes index result σ) = σ.
Proof.
  induction reqs as [|r rest IH]; intros index result σ; [done|].
  cbn [env_loop]. unfold bind at 1, pick_cap.
  destruct (nth_error capnodes _) as [c|]; [|done]. unfold ret at 1.
  unfold bind. pose proof (NodeSpace_check_store r (Some c) σ) as Hs.
  destruct (NodeSpace_check r (Some c) σ) as [[e|sub] σ']; simpl in Hs |- *;
    subst σ'; [done|].
  destruct (negb _); [done|]. apply IH.
Qed.

Lemma EnvironmentSpace_check_store (self cap : EnvironmentSpace) (σ : store) :
  snd (EnvironmentSpace_check self cap σ) = σ.
Proof.
  unfold EnvironmentSpace_check. destruct (nodes cap); [done|].
  apply env_loop_store.
Qed.

(** C3: with a single capability node, [EnvironmentSpace.check] checks that
    node against every requirement node; otherwise requirement node i is
    checked against capability node i (pairwise by index), and a capability
    with fewer nodes (and not exactly one) raises [IndexError] once the
    requirement nodes outrun it, unless a node failed before. *)
Theorem EnvironmentSpace_check_pairing (self cap : EnvironmentSpace) (σ : store) :
  (forall c0, nodes cap = [c0] ->
     EnvironmentSpace_check self cap σ =
     env_fold (map (fun r => (r, c0)) (nodes self)) 0 rr_new σ) /\
  (nodes cap <> [] -> length (nodes cap) <> 1%nat ->
   (length (nodes self) <= length (nodes cap))%nat ->
     EnvironmentSpace_check self cap σ =
     env_fold (zip (nodes self) (nodes cap)) 0 rr_new σ) /\
  (length (nodes cap) <> 1%nat -> (length (nodes cap) < length (nodes self))%nat ->
   nodes cap <> [] ->
     EnvironmentSpace_check self cap σ =
     bind (env_fold (zip (nodes self) (nodes cap)) 0 rr_new)
          (fun res => if rr_verdict res then raise IndexError else ret res) σ).
Proof.
  unfold EnvironmentSpace_check. split; [|split].
  - intros c0 ->. apply env_loop_broadcast.
  - intros Hne Hlen Hle. destruct (nodes cap) as [|c cs] eqn:Hc; [done|].
    rewrite <- Hc in *. rewrite env_loop_pairwise by done.
    rewrite drop_0, <- bind_ret_r. unfold bind.
    destruct (env_fold _ _ _ σ) as [[e|res] σ']; [done|].
    replace (length (nodes cap) <? length (nodes self))%nat with false
      by (symmetry; apply Nat.ltb_ge; lia).
    reflexivity.
  - intros Hlen Hlt Hne. destruct (nodes cap) as [|c cs] eqn:Hc; [done|].
    rewrite <- Hc in *. rewrite env_loop_pairwise by done.
    rewrite drop_0. unfold bind.
    destruct (env_fold _ _ _ σ) as [[e|res] σ']; [done|].
    replace (length (nodes cap) <? length (nodes self))%nat with true
      by (symmetry; apply Nat.ltb_lt; lia).
    reflexivity.
Qed.

(** C3 witness: three requirement nodes against one capability node. *)
Lemma EnvironmentSpace_check_pairing_witness :
  nodes env_one = [exact_node 1 4 2048 1 0] /\
  EnvironmentSpace_check env_three env_one ∅ =
  env_fold (map (fun r => (r, exact_node 1 4 2048 1 0)) (nodes env_three)) 0 rr_new ∅.
Proof.
  split; [reflexivity|].
  apply (proj1 (EnvironmentSpace_check_pairing env_three env_one ∅)).
  reflexivity.
Defined.

Lemma env_loop_first_failure (capnodes : list NodeSpace) (rk ck : NodeSpace)
    (rest : list NodeSpace) (sub : ResultReason) (σ σ' : store) (pre : list NodeSpace) :
  forall index result subs,
  rr_verdict result = true ->
  nodes_pass capnodes σ index pre subs ->
  pick_cap capnodes (index + length pre)%nat σ = (inr ck, σ) ->
  NodeSpace_check rk (Some ck) σ = (inr sub, σ') -> rr_verdict sub = false ->
  env_loop (pre ++ rk :: rest) capnodes index result σ =
  (inr (mkRR false (reasons result ++ indexed_reasons index subs ++
                    map (RNamed (pretty (index + length pre)%nat)) (reasons sub))), σ').
Proof.
  induction pre as [|r pre IH]; intros index result subs Hres Hpass Hpick Hk Hf.
  - destruct subs; [|done]. rewrite Nat.add_0_r in Hpick.
    cbn [env_loop app]. unfold bind. rewrite Hpick. cbv beta iota.
    rewrite Hk. cbv beta iota. unfold merge, rr_verdict in *. simpl.
    rewrite Hres, Hf. simpl. unfold ret. by rewrite Nat.add_0_r.
  - destruct subs as [|s subs]; [done|].
    destruct Hpass as [(c & Hc & Hn) [Hs Hpass]].
    cbn [env_loop app]. unfold bind at 1. rewrite Hc. cbv beta iota.
    unfold bind at 1. rewrite Hn. cbv beta iota.
    assert (Hm : rr_verdict (merge result s (pretty index)) = true)
      by (unfold rr_verdict, merge in *; simpl; by rewrite Hres, Hs).
    cbv zeta. rewrite Hm. cbn [negb].
    rewrite (IH (S index) (merge result s (pretty index)) subs Hm Hpass)
      by (first [exact Hk | exact Hf | replace (S index + length pre)%nat with (index + length (r :: pre))%nat by (simpl; lia); exact Hpick]).
    simpl. rewrite <- !app_assoc. rewrite ?Nat.add_succ_r, ?Nat.add_succ_l; reflexivity.
Qed.

(** C4: [EnvironmentSpace.check] stops at the first requirement node whose
    check fails: when the nodes before position k pass and node k fails, the
    result holds the earlier nodes' reasons and node k's reasons, each under
    its node index, and nothing from any later node.  For k = 0 this is node
    0's reasons alone, each prefixed with "0". *)
Theorem EnvironmentSpace_check_short_circuit (self cap : EnvironmentSpace)
    (pre rest : list NodeSpace) (rk ck : NodeSpace) (subs : list ResultReason)
    (sub : ResultReason) (σ σ' : store) :
  nodes self = pre ++ rk :: rest ->
  nodes_pass (nodes cap) σ 0 pre subs ->
  pick_cap (nodes cap) (length pre) σ = (inr ck, σ) ->
  NodeSpace_check rk (Some ck) σ = (inr sub, σ') -> rr_verdict sub = false ->
  EnvironmentSpace_check self cap σ =
  (inr (mkRR false (indexed_reasons 0 subs ++
                    map (RNamed (pretty (length pre))) (reasons sub))), σ') /\
  (pre = [] ->
   EnvironmentSpace_check self cap σ =
   (inr (mkRR false (map (RNamed "0") (reasons sub))), σ')).
Proof.
  intros Hs Hpass Hpick Hk Hf.
  assert (H : EnvironmentSpace_check self cap σ =
    (inr (mkRR false (indexed_reasons 0 subs ++
                      map (RNamed (pretty (length pre))) (reasons sub))), σ')).
  { unfold EnvironmentSpace_check. rewrite Hs.
    destruct (nodes cap) as [|c0 cs] eqn:Hc.
    { unfold pick_cap in Hpick. simpl in Hpick. destruct (length pre); discriminate. }
    rewrite <- Hc in *.
    exact (env_loop_first_failure (nodes cap) rk ck rest sub σ σ' pre 0 rr_new subs
             eq_refl Hpass Hpick Hk Hf). }
  split; [exact H|]. intros ->. destruct subs; [|done]. exact H.
Qed.

(** C4 witness: against one capability node, requirement node 0 passes and
    nodes 1 and 2 would both fail; only node 1's reasons are returned, under
    "1". *)
Lemma EnvironmentSpace_check_short_circuit_witness :
  EnvironmentSpace_check env_pass_fail env_small ∅ =
  (inr (mkRR false [RNamed "1" (RNodeCountLess 2 4);
                    RNamed "1" (RNamed "memory_mb"
                                  (RCountNotCovered (CInt 1024) (CInt 512)))]), ∅).
Proof.
  apply (EnvironmentSpace_check_short_circuit env_pass_fail env_small
           [exact_node 1 2 512 1 0] [exact_node 4 2 1024 1 0]
           (exact_node 4 2 1024 1 0) (exact_node 2 4 512 1 0) [rr_new]
           (mkRR false [RNodeCountLess 2 4;
                        RNamed "memory_mb" (RCountNotCovered (CInt 1024) (CInt 512))])
           ∅ ∅); try reflexivity.
  simpl. split; [|split; [reflexivity|done]].
  exists (exact_node 2 4 512 1 0). split; reflexivity.
Defined.

(** C9: [NodeSpace.check] and [EnvironmentSpace.check] leave the heap of
    [Feature] objects (the only mutable part of their inputs) unchanged, so a
    second call returns the same verdict and reasons. *)
Theorem check_leaves_inputs_unchanged :
  (forall (r : NodeSpace) (c : option NodeSpace) (σ : store),
     snd (NodeSpace_check r c σ) = σ /\
     NodeSpace_check r c (snd (NodeSpace_check r c σ)) = NodeSpace_check r c σ) /\
  (forall (r c : EnvironmentSpace) (σ : store),
     snd (EnvironmentSpace_check r c σ) = σ /\
     EnvironmentSpace_check r c (snd (EnvironmentSpace_check r c σ)) =
     EnvironmentSpace_check r c σ).
Proof.
  split; intros r c σ.
  - rewrite NodeSpace_check_store. done.
  - rewrite EnvironmentSpace_check_store. done.
Qed.

Lemma set_add_self (l : loc) (s : FeatureSet) : l ∈ set_add l s.
Proof. unfold set_add. case_decide; [done|]. set_solver. Qed.

Lemma set_add_mono (l x : loc) (s : FeatureSet) : x ∈ s -> x ∈ set_add l s.
Proof. unfold set_add. case_decide; [done|]. set_solver. Qed.

(** The excluded-features loop writes [enabled = False] on each excluded
    object, adds it to the result set, and touches nothing else. *)
Lemma add_excluded_spec (ex : FeatureSet) :
  forall (fs : FeatureSet) (σ : store),
  exists fs' σ', add_excluded ex fs σ = (inr fs', σ') /\
    (forall l, l ∈ fs -> l ∈ fs') /\
    (forall l, l ∈ ex -> l ∈ fs' /\ σ' !! l = Some (disabled (deref σ l))) /\
    (forall l, l ∉ ex -> σ' !! l = σ !! l).
Proof.
  induction ex as [|l ex IH]; intros fs σ.
  - exists fs, σ. split; [done|]. split; [done|]. split; [|done].
    intros l Hl. by apply not_elem_of_nil in Hl.
  - cbn [add_excluded]. unfold bind at 1, set_enabled_false, bind, get, put.
    set (σ1 := <[l := mkFeature (f_name (deref σ l)) false (f_can_disable (deref σ l))]> σ).
    destruct (IH (set_add l fs) σ1) as (fs' & σ' & Heq & Hfs & Hex & Hout).
    exists fs', σ'. split; [exact Heq|]. split; [|split].
    + intros x Hx. by apply Hfs, set_add_mono.
    + intros x Hx. apply elem_of_cons in Hx as [-> | Hx].
      * split; [by apply Hfs, set_add_self|].
        destruct (decide (l ∈ ex)) as [Hin|Hnin].
        -- rewrite (proj2 (Hex l Hin)). unfold deref, σ1.
           by rewrite lookup_insert_eq.
        -- rewrite (Hout l Hnin). unfold σ1. by rewrite lookup_insert_eq.
      * split; [by apply Hex|].
        rewrite (proj2 (Hex x Hx)). unfold deref, σ1.
        destruct (decide (x = l)) as [->|Hne].
        -- by rewrite lookup_insert_eq.
        -- by rewrite lookup_insert_ne by congruence.
    + intros x Hx. rewrite Hout by set_solver. unfold σ1.
      rewrite lookup_insert_ne; [done|]. set_solver.
Qed.

Lemma gen_result (r c : NodeSpace) (σ : store) (m : NodeSpace) (σ' : store) :
  NodeSpace_generate_min_capability r c σ = (inr m, σ') ->
  count_declared (node_count r) (node_count c) = true /\
  count_declared (core_count r) (core_count c) = true /\
  count_declared (memory_mb r) (memory_mb c) = true /\
  count_declared (nic_count r) (nic_count c) = true /\
  node_count m = gen_node_count r c /\
  gpu_count m = gen_gpu_count r c /\
  exists fs, features m = Some fs /\
    gen_excluded_step r (gen_base_features r) σ = (inr fs, σ').
Proof.
  unfold NodeSpace_generate_min_capability, gen_node_count, gen_gpu_count,
    gen_base_features, gen_excluded_step, count_declared.
  unfold bind, ret, raise. intros H.
  repeat (case_match; simplify_eq/=); rewrite ?orb_true_r;
    repeat split; eauto.
Qed.

Lemma add_excluded_no_raise (ex fs : FeatureSet) (σ σ' : store) (e : exn) :
  add_excluded ex fs σ <> (inl e, σ').
Proof.
  destruct (add_excluded_spec ex fs σ) as (fs' & σ'' & Heq & _). congruence.
Qed.

(** When each of node_count, core_count, memory_mb and nic_count is declared
    (non-zero) on one side, [_generate_min_capability] returns. *)
Lemma gen_returns (r c : NodeSpace) (σ : store) :
  count_declared (node_count r) (node_count c) = true ->
  count_declared (core_count r) (core_count c) = true ->
  count_declared (memory_mb r) (memory_mb c) = true ->
  count_declared (nic_count r) (nic_count c) = true ->
  exists m σ', NodeSpace_generate_min_capability r c σ = (inr m, σ').
Proof.
  unfold count_declared. intros H1 H2 H3 H4.
  unfold NodeSpace_generate_min_capability, bind, ret, raise.
  rewrite H1, H2, H3, H4.
  repeat case_match; simplify_eq/=; eauto;
    exfalso; eapply add_excluded_no_raise; eassumption.
Qed.

(** [_generate_min_capability] raises only the configuration errors of its
    count guards, before it writes anything. *)
Lemma gen_raise (r c : NodeSpace) (σ σ' : store) (e : exn) :
  NodeSpace_generate_min_capability r c σ = (inl e, σ') ->
  σ' = σ /\ exists msg, e = LisaException msg.
Proof.
  unfold NodeSpace_generate_min_capability, bind, ret, raise. intros H.
  repeat case_match; simplify_eq/=; eauto;
    exfalso; eapply add_excluded_no_raise; eassumption.
Qed.

(** C6 (as amended): for exact-integer node_count on both sides,
    [_generate_min_capability] raises "node_count cannot be zero" when both are
    0; whenever it returns, the result's node_count is the capability's value
    unmodified (even above the requirement's); and it does return when one
    side is non-zero and core_count, memory_mb and nic_count are each declared
    on one side. *)
Theorem generate_min_capability_node_count (r c : NodeSpace) (σ : store) (rq cp : Z) :
  node_count r = Some (CInt rq) -> node_count c = Some (CInt cp) ->
  (rq = 0 -> cp = 0 ->
   NodeSpace_generate_min_capability r c σ =
   (inl (LisaException "node_count cannot be zero"), σ)) /\
  (forall m σ', NodeSpace_generate_min_capability r c σ = (inr m, σ') ->
   node_count m = Some (CInt cp)) /\
  (rq <> 0 \/ cp <> 0 ->
   count_declared (core_count r) (core_count c) = true ->
   count_declared (memory_mb r) (memory_mb c) = true ->
   count_declared (nic_count r) (nic_count c) = true ->
   exists m σ', NodeSpace_generate_min_capability r c σ = (inr m, σ') /\
                node_count m = Some (CInt cp)).
Proof.
  intros Hr Hc.
  assert (Hn : forall m σ', NodeSpace_generate_min_capability r c σ = (inr m, σ') ->
                            node_count m = Some (CInt cp)).
  { intros m σ' H. destruct (gen_result _ _ _ _ _ H) as (_ & _ & _ & _ & -> & _).
    unfold gen_node_count. by rewrite Hr, Hc. }
  split; [|split; [exact Hn|]].
  - intros -> ->. unfold NodeSpace_generate_min_capability, bind, raise.
    rewrite Hr, Hc. reflexivity.
  - intros Hnz H2 H3 H4.
    destruct (gen_returns r c σ) as (m & σ' & H); try done.
    + unfold count_declared. rewrite Hr, Hc. simpl.
      destruct Hnz as [Hnz | Hnz]; apply Z.eqb_neq in Hnz; rewrite Hnz;
        by rewrite ?orb_true_r.
    + exists m, σ'. split; [done|]. by apply (Hn m σ').
Qed.

(** C6 counterexample: both node_count values exact 0: it raises instead of
    returning the capability's node_count. *)
Lemma generate_min_capability_node_count_counterexample :
  NodeSpace_generate_min_capability (exact_node 0 1 512 1 0) (exact_node 0 1 512 1 0) ∅
  = (inl (LisaException "node_count cannot be zero"), ∅).
Proof. reflexivity. Qed.

(** C6 witness: requirement node_count 2, capability 4: the result keeps 4. *)
Lemma generate_min_capability_node_count_witness :
  exists m σ', NodeSpace_generate_min_capability (exact_node 2 1 512 1 0)
                 (exact_node 4 2 1024 1 0) ∅ = (inr m, σ') /\
               node_count m = Some (CInt 4).
Proof.
  apply (proj2 (proj2 (generate_min_capability_node_count
                         (exact_node 2 1 512 1 0) (exact_node 4 2 1024 1 0) ∅ 2 4
                         eq_refl eq_refl))); [left; discriminate | reflexivity..].
Defined.

(** C8: [_generate_min_capability] raises a configuration error (without
    touching the heap) whenever node_count, core_count, memory_mb or nic_count
    is absent on both sides; a gpu_count absent on both sides does not make
    it raise, and the result's gpu_count is exactly 0. *)
Theorem generate_min_capability_absent_counts (r c : NodeSpace) (σ : store) :
  ((node_count r = None /\ node_count c = None) \/
   (core_count r = None /\ core_count c = None) \/
   (memory_mb r = None /\ memory_mb c = None) \/
   (nic_count r = None /\ nic_count c = None) ->
   exists msg, NodeSpace_generate_min_capability r c σ =
               (inl (LisaException msg), σ)) /\
  (gpu_count r = None -> gpu_count c = None ->
   (forall m σ', NodeSpace_generate_min_capability r c σ = (inr m, σ') ->
    gpu_count m = Some (CInt 0)) /\
   (count_declared (node_count r) (node_count c) = true ->
    count_declared (core_count r) (core_count c) = true ->
    count_declared (memory_mb r) (memory_mb c) = true ->
    count_declared (nic_count r) (nic_count c) = true ->
    exists m σ', NodeSpace_generate_min_capability r c σ = (inr m, σ') /\
                 gpu_count m = Some (CInt 0))).
Proof.
  split.
  - intros Habs.
    destruct (NodeSpace_generate_min_capability r c σ) as [[e|m] σ'] eqn:E.
    + destruct (gen_raise _ _ _ _ _ E) as [-> [msg ->]]. by exists msg.
    + exfalso. destruct (gen_result _ _ _ _ _ E) as (H1 & H2 & H3 & H4 & _).
      unfold count_declared in *.
      destruct Habs as [[Ha Hb] | [[Ha Hb] | [[Ha Hb] | [Ha Hb]]]];
        rewrite Ha, Hb in *; simpl in *; discriminate.
  - intros Hgr Hgc.
    assert (Hg : forall m σ', NodeSpace_generate_min_capability r c σ = (inr m, σ') ->
                              gpu_count m = Some (CInt 0)).
    { intros m σ' H. destruct (gen_result _ _ _ _ _ H) as (_ & _ & _ & _ & _ & -> & _).
      unfold gen_gpu_count. by rewrite Hgr, Hgc. }
    split; [exact Hg|].
    intros H1 H2 H3 H4.
    destruct (gen_returns r c σ H1 H2 H3 H4) as (m & σ' & H).
    exists m, σ'. split; [done|]. by apply (Hg m σ').
Qed.

(** C8 witness: no counts at all raises; counts without gpu_count give
    gpu_count 0. *)
Lemma generate_min_capability_absent_counts_witness :
  (exists msg, NodeSpace_generate_min_capability no_counts_node no_counts_node ∅ =
               (inl (LisaException msg), ∅)) /\
  (exists m σ', NodeSpace_generate_min_capability no_gpu_node no_gpu_node ∅ = (inr m, σ') /\
                gpu_count m = Some (CInt 0)).
Proof.
  split.
  - apply (proj1 (generate_min_capability_absent_counts no_counts_node no_counts_node ∅)).
    left. split; reflexivity.
  - apply (proj2 (proj2 (generate_min_capability_absent_counts no_gpu_node no_gpu_node ∅)
                    eq_refl eq_refl)); reflexivity.
Defined.

(** C10 (as amended): for a requirement with a non-empty excluded_features
    set, whenever [_generate_min_capability] returns, it has set
    [enabled = False] on each [Feature] object of the requirement's
    excluded_features (name and can_disable kept, every other object
    untouched), and the returned features set holds those same objects; the
    heap, hence the requirement, changes exactly when one of the excluded
    features was enabled before the call. *)
Theorem generate_min_capability_mutates_excluded (r c : NodeSpace) (σ : store)
    (ex : FeatureSet) (m : NodeSpace) (σ' : store) :
  excluded_features r = Some ex -> ex <> [] ->
  NodeSpace_generate_min_capability r c σ = (inr m, σ') ->
  (forall l, l ∈ ex ->
     σ' !! l = Some (disabled (deref σ l)) /\ l ∈ from_option id [] (features m)) /\
  (forall l, l ∉ ex -> σ' !! l = σ !! l) /\
  (σ' = σ <-> forallb (fun l => negb (f_enabled (deref σ l))) ex = true).
Proof.
  intros Hex Hne H.
  destruct (gen_result _ _ _ _ _ H) as (_ & _ & _ & _ & _ & _ & fs & Hfs & Hstep).
  unfold gen_excluded_step in Hstep. rewrite Hex in Hstep.
  replace (set_truthy (Some ex)) with true in Hstep by (by destruct ex).
  destruct (add_excluded_spec ex (gen_base_features r) σ)
    as (fs' & σ'' & Heq & _ & Hin & Hout).
  simpl in Hstep. rewrite Heq in Hstep. injection Hstep as <- <-.
  split; [|split; [exact Hout|]].
  - intros l Hl. rewrite Hfs. simpl. split; apply Hin; exact Hl.
  - split.
    + intros ->. apply forallb_forall. intros l Hl.
      apply list_elem_of_In in Hl.
      pose proof (proj2 (Hin l Hl)) as Hl'.
      unfold deref at 1. rewrite Hl'. by simpl.
    + intros Hall. apply map_eq. intros l.
      destruct (decide (l ∈ ex)) as [Hl|Hl]; [|by apply Hout].
      rewrite (proj2 (Hin l Hl)).
      pose proof (proj1 (forallb_forall _ _) Hall l
                    (proj1 (list_elem_of_In _ _) Hl)) as Hd.
      unfold deref in Hd |- *.
      destruct (σ !! l) as [f|]; simpl in Hd; [|discriminate].
      destruct f as [n en cd]; simpl in *. by destruct en.
Qed.

(** C10 counterexample: the excluded RDMA object is already disabled, so
    the call returns with the heap, and the requirement, unchanged. *)
Lemma generate_min_capability_mutates_excluded_counterexample :
  excluded_features rdma_req = Some [1%positive] /\
  exists m, NodeSpace_generate_min_capability rdma_req (rdma_cap 1%positive)
              disabled_rdma_store = (inr m, disabled_rdma_store).
Proof.
  split; [reflexivity|].
  exists (mkNodeSpace ENVIRONMENTS_NODES_REQUIREMENT "" false ""
            (Some (CInt 1)) (Some (CInt 4)) (Some (CInt 2048)) (Some (CInt 1))
            (Some (CInt 0)) (Some [1%positive]) None).
  vm_compute. reflexivity.
Qed.

(** C10 witness: the excluded RDMA object is enabled; after the call it is
    disabled. *)
Lemma generate_min_capability_mutates_excluded_witness :
  exists m σ', NodeSpace_generate_min_capability rdma_req (rdma_cap 3%positive)
                 rdma_store = (inr m, σ') /\
               σ' !! 1%positive = Some (mkFeature "RDMA" false false) /\
               σ' <> rdma_store.
Proof.
  destruct (NodeSpace_generate_min_capability rdma_req (rdma_cap 3%positive) rdma_store)
    as [[e|m] σ'] eqn:E.
  - vm_compute in E. discriminate.
  - exists m, σ'. split; [reflexivity|].
    destruct (generate_min_capability_mutates_excluded rdma_req (rdma_cap 3%positive)
                rdma_store [1%positive] m σ' eq_refl ltac:(discriminate) E)
      as (Hin & _ & Heq).
    split.
    + apply (Hin 1%positive). left.
    + intros Hs. apply Heq in Hs. vm_compute in Hs. discriminate.
Defined.

(** ** Further properties of the schema *)

Lemma elem_of_set_add (l x : loc) (s : FeatureSet) : l ∈ set_add x s <-> l = x \/ l ∈ s.
Proof. unfold set_add. case_decide; set_solver. Qed.

Lemma NoDup_set_add (x : loc) (s : FeatureSet) : NoDup s -> NoDup (set_add x s).
Proof.
  unfold set_add. case_decide; [done|]. intros Hs.
  apply NoDup_app. split; [done|]. split; [set_solver|]. apply NoDup_singleton.
Qed.

Lemma from_value_step_eq (σ : store) (node : NodeSpace) (x : loc) :
  from_value_step σ node x =
  if keeps σ x
  then ns_set_features node (Some (set_add x (set_elems (features node))))
  else ns_set_excluded node (Some (set_add x (set_elems (excluded_features node)))).
Proof.
  unfold from_value_step, keeps, set_elems.
  destruct (features node) as [[|]|], (excluded_features node) as [[|]|]; reflexivity.
Qed.


Lemma from_value_fold (σ : store) (xs : FeatureSet) : forall node,
  let n := fold_left (from_value_step σ) xs node in
  strip n = strip node /\
  (forall l, l ∈ set_elems (features n) <->
             l ∈ set_elems (features node) \/ (l ∈ xs /\ keeps σ l = true)) /\
  (forall l, l ∈ set_elems (excluded_features n) <->
             l ∈ set_elems (excluded_features node) \/ (l ∈ xs /\ keeps σ l = false)) /\
  (features n = None <->
     features node = None /\ forall l, l ∈ xs -> keeps σ l = false) /\
  (excluded_features n = None <->
     excluded_features node = None /\ forall l, l ∈ xs -> keeps σ l = true) /\
  (NoDup (set_elems (features node)) -> NoDup (set_elems (features n))) /\
  (NoDup (set_elems (excluded_features node)) -> NoDup (set_elems (excluded_features n))).
Proof.
  induction xs as [|x xs IH]; intros node n; subst n; cbn [fold_left].
  - split; [done|]. split; [set_solver|]. split; [set_solver|].
    split; [split; [intros H; split; [done|set_solver] | tauto]|].
    split; [split; [intros H; split; [done|set_solver] | tauto]|]. tauto.
  - destruct (IH (from_value_step σ node x)) as (H1 & H2 & H3 & H4 & H5 & H6 & H7).
    rewrite from_value_step_eq in H1, H2, H3, H4, H5, H6, H7 |- *.
    destruct (keeps σ x) eqn:Hk;
      cbn [ns_set_features ns_set_excluded features excluded_features set_elems from_option id] in H2, H3, H4, H5, H6, H7.
    + split; [rewrite H1; unfold strip, ns_set_features, ns_set_excluded; by destruct node|].
      split; [intros l; rewrite H2, elem_of_set_add, elem_of_cons;
        split; [intros [[->|?]|[? ?]]; tauto|intros [?|[[->|?] ?]]; tauto]|].
      split; [intros l; rewrite H3, elem_of_cons;
        split; [intros [?|[? ?]]; tauto|intros [?|[[->|?] ?]]; [tauto|congruence|tauto]]|].
      split.
      { rewrite H4. split; [intros [[=] _]|intros [_ Hx]].
        exfalso. rewrite (Hx x) in Hk by left. done. }
      split.
      { rewrite H5. split.
        - intros [He Hx]. split; [done|]. intros l Hl.
          apply elem_of_cons in Hl as [->|Hl]; [done|]. by apply Hx.
        - intros [He Hx]. split; [done|]. intros l Hl. apply Hx. by right. }
      split; [intros Hn; apply H6, NoDup_set_add, Hn|exact H7].
    + split; [rewrite H1; unfold strip, ns_set_features, ns_set_excluded; by destruct node|].
      split; [intros l; rewrite H2, elem_of_cons;
        split; [intros [?|[? ?]]; tauto|intros [?|[[->|?] ?]]; [tauto|congruence|tauto]]|].
      split; [intros l; rewrite H3, elem_of_set_add, elem_of_cons;
        split; [intros [[->|?]|[? ?]]; tauto|intros [?|[[->|?] ?]]; tauto]|].
      split.
      { rewrite H4. split.
        - intros [He Hx]. split; [done|]. intros l Hl.
          apply elem_of_cons in Hl as [->|Hl]; [done|]. by apply Hx.
        - intros [He Hx]. split; [done|]. intros l Hl. apply Hx. by right. }
      split.
      { rewrite H5. split; [intros [[=] _]|intros [_ Hx]].
        exfalso. rewrite (Hx x) in Hk by left. done. }
      split; [exact H6|intros Hn; apply H7, NoDup_set_add, Hn].
Qed.

Lemma from_value_spec (v : NodeSpace) (σ : store) :
  exists n, NodeSpace_from_value (Some v) σ = (inr n, σ) /\
  strip n = mkNodeSpace ENVIRONMENTS_NODES_REQUIREMENT "" false "" (node_count v)
              (core_count v) (memory_mb v) (nic_count v) (gpu_count v) None None /\
  (forall l, l ∈ set_elems (features n) <->
             l ∈ set_elems (features v) /\ keeps σ l = true) /\
  (forall l, l ∈ set_elems (excluded_features n) <->
             l ∈ set_elems (features v) /\ keeps σ l = false) /\
  (features n = None <-> forall l, l ∈ set_elems (features v) -> keeps σ l = false) /\
  (excluded_features n = None <->
     forall l, l ∈ set_elems (features v) -> keeps σ l = true) /\
  NoDup (set_elems (features n)) /\ NoDup (set_elems (excluded_features n)).
Proof.
  eexists. split; [reflexivity|].
  destruct (set_truthy (features v)) eqn:Ht.
  - destruct (from_value_fold σ (from_option id [] (features v))
      (mkNodeSpace ENVIRONMENTS_NODES_REQUIREMENT "" false "" (node_count v)
         (core_count v) (memory_mb v) (nic_count v) (gpu_count v) None None))
      as (H1 & H2 & H3 & H4 & H5 & H6 & H7).
    cbn [features excluded_features set_elems from_option id] in *.
    split; [exact H1|].
    split; [intros l; rewrite H2; set_solver|].
    split; [intros l; rewrite H3; set_solver|].
    split; [rewrite H4; tauto|]. split; [rewrite H5; tauto|].
    split; [apply H6; constructor|apply H7; constructor].
  - assert (He : set_elems (features v) = []).
    { unfold set_elems. destruct (features v) as [[|]|]; done. }
    rewrite He. cbn.
    repeat split; try set_solver; try constructor.
Qed.

(** [NodeSpace.from_value] never raises and leaves the heap unchanged; it
    returns a [requirement] node with the counts of [v] whose [features] keep
    the enabled or disableable features of [v] and whose [excluded_features]
    hold the others, each without duplicates and [None] when empty. *)
Theorem NodeSpace_from_value_partition (v : NodeSpace) (σ : store) :
  exists n, NodeSpace_from_value (Some v) σ = (inr n, σ) /\
  strip n = mkNodeSpace ENVIRONMENTS_NODES_REQUIREMENT "" false "" (node_count v)
              (core_count v) (memory_mb v) (nic_count v) (gpu_count v) None None /\
  (forall l, l ∈ set_elems (features n) <->
             l ∈ set_elems (features v) /\ keeps σ l = true) /\
  (forall l, l ∈ set_elems (excluded_features n) <->
             l ∈ set_elems (features v) /\ keeps σ l = false) /\
  (features n = None <-> forall l, l ∈ set_elems (features v) -> keeps σ l = false) /\
  (excluded_features n = None <->
     forall l, l ∈ set_elems (features v) -> keeps σ l = true) /\
  NoDup (set_elems (features n)) /\ NoDup (set_elems (excluded_features n)).
Proof. exact (from_value_spec v σ). Qed.

Lemma from_value_store_keeps (v : NodeSpace) (σ : store) (r : NodeSpace) l :
  NodeSpace_from_value (Some v) σ = (inr r, σ) ->
  l ∈ set_elems (excluded_features r) -> σ !! l = Some (deref σ l) /\ f_enabled (deref σ l) = false.
Proof.
  intros Hr Hl.
  destruct (from_value_spec v σ) as (n & Hn & _ & _ & Hex & _).
  rewrite Hr in Hn. injection Hn as <-.
  apply Hex in Hl as [_ Hk]. unfold keeps in Hk. apply orb_false_iff in Hk as [Hen _].
  unfold deref in *. destruct (σ !! l) as [f|]; simpl in *; [done|discriminate].
Qed.

(** [NodeSpace._generate_min_capability] on a requirement built by
    [NodeSpace.from_value] leaves the feature heap unchanged: every excluded
    feature object [from_value] creates is already disabled. *)
Theorem from_value_generate_min_capability_store (v c : NodeSpace) (σ : store)
    (r m : NodeSpace) (σ' : store) :
  NodeSpace_from_value (Some v) σ = (inr r, σ) ->
  NodeSpace_generate_min_capability r c σ = (inr m, σ') -> σ' = σ.
Proof.
  intros Hr Hg.
  destruct (gen_result _ _ _ _ _ Hg) as (_ & _ & _ & _ & _ & _ & fs & _ & Hstep).
  unfold gen_excluded_step in Hstep.
  destruct (set_truthy (excluded_features r)); [|by injection Hstep].
  destruct (add_excluded_spec (from_option id [] (excluded_features r))
              (gen_base_features r) σ) as (fs' & σ'' & Heq & _ & Hin & Hout).
  rewrite Heq in Hstep. injection Hstep as <- <-.
  apply map_eq. intros l.
  destruct (decide (l ∈ from_option id [] (excluded_features r))) as [Hl|Hl].
  - rewrite (proj2 (Hin l Hl)).
    destruct (from_value_store_keeps v σ r l Hr Hl) as [Hs He].
    rewrite Hs. unfold disabled. rewrite <- He. by destruct (deref σ l).
  - by apply Hout.
Qed.

Lemma set_update_spec (t : FeatureSet) : forall s,
  (forall l, l ∈ set_update s t <-> l ∈ s \/ l ∈ t) /\
  (NoDup s -> NoDup (set_update s t)).
Proof.
  unfold set_update.
  induction t as [|x t IH]; intros s; simpl.
  - split; [set_solver|done].
  - destruct (IH (set_add x s)) as [Hm Hn]. split.
    + intros l. rewrite Hm, elem_of_set_add, elem_of_cons. tauto.
    + intros Hs. apply Hn, NoDup_set_add, Hs.
Qed.

Lemma add_excluded_members (ex : FeatureSet) : forall fs σ fs' σ',
  add_excluded ex fs σ = (inr fs', σ') ->
  (forall l, l ∈ fs' <-> l ∈ fs \/ l ∈ ex) /\ (NoDup fs -> NoDup fs').
Proof.
  induction ex as [|x ex IH]; intros fs σ fs' σ' H.
  - injection H as <- <-. split; [set_solver|done].
  - cbn [add_excluded] in H. unfold bind at 1, set_enabled_false, bind, get, put in H.
    destruct (IH _ _ _ _ H) as [Hm Hn]. split.
    + intros l. rewrite Hm, elem_of_set_add, elem_of_cons. tauto.
    + intros Hs. apply Hn, NoDup_set_add, Hs.
Qed.

Lemma gen_result_shape (r c : NodeSpace) (σ : store) (m : NodeSpace) (σ' : store) :
  NodeSpace_generate_min_capability r c σ = (inr m, σ') ->
  ns_type m = ENVIRONMENTS_NODES_REQUIREMENT /\ ns_name m = "" /\
  ns_is_default m = false /\ ns_artifact m = "" /\ excluded_features m = None.
Proof.
  unfold NodeSpace_generate_min_capability. unfold bind, ret, raise. intros H.
  repeat (case_match; simplify_eq/=); repeat split.
Qed.

(** [NodeSpace._generate_min_capability] returns a [requirement] node with an
    empty name, not default, no artifact and no excluded set; its feature set
    has no duplicates and holds exactly the requirement's features and
    excluded features. *)
Theorem generate_min_capability_features (r c m : NodeSpace) (σ σ' : store) :
  NodeSpace_generate_min_capability r c σ = (inr m, σ') ->
  ns_type m = ENVIRONMENTS_NODES_REQUIREMENT /\ ns_name m = "" /\
  ns_is_default m = false /\ ns_artifact m = "" /\ excluded_features m = None /\
  exists fs, features m = Some fs /\ NoDup fs /\
    forall l, l ∈ fs <-> l ∈ set_elems (features r) \/ l ∈ set_elems (excluded_features r).
Proof.
  intros H.
  destruct (gen_result_shape _ _ _ _ _ H) as (H1 & H2 & H3 & H4 & H5).
  do 5 (split; [assumption|]).
  destruct (gen_result _ _ _ _ _ H) as (_ & _ & _ & _ & _ & _ & fs & Hfs & Hstep).
  exists fs. split; [exact Hfs|].
  assert (Hbase : (forall l, l ∈ gen_base_features r <-> l ∈ set_elems (features r)) /\
                  NoDup (gen_base_features r)).
  { unfold gen_base_features, set_elems.
    destruct (set_truthy (features r)) eqn:Ht.
    - destruct (set_update_spec (from_option id [] (features r)) []) as [Hm Hn].
      split; [intros l; rewrite Hm; set_solver|apply Hn; constructor].
    - destruct (features r) as [[|]|]; try discriminate; split; try constructor; set_solver. }
  destruct Hbase as [Hbm Hbn].
  unfold gen_excluded_step in Hstep.
  destruct (set_truthy (excluded_features r)) eqn:Ht.
  - destruct (add_excluded_members _ _ _ _ _ Hstep) as [Hm Hn].
    split; [by apply Hn|]. intros l. rewrite Hm, Hbm. reflexivity.
  - injection Hstep as <- _. split; [exact Hbn|].
    intros l. rewrite Hbm. unfold set_elems.
    destruct (excluded_features r) as [[|]|]; try discriminate; set_solver.
Qed.

Ltac remote_unfold :=
  unfold RemoteNode_post_init, rn_fill_address, rn_fill_port, rn_check_credentials,
    str_truthy, int_truthy, sbind.

Ltac remote_simp :=
  repeat (simpl; match goal with
  | H : ?x = ?y |- context [String.eqb ?x ?y] => rewrite (proj2 (String.eqb_eq x y) H)
  | H : ?x <> ?y |- context [String.eqb ?x ?y] => rewrite (proj2 (String.eqb_neq x y) H)
  | H : ?x = ?y |- context [Z.eqb ?x ?y] => rewrite (proj2 (Z.eqb_eq x y) H)
  | H : ?x <> ?y |- context [Z.eqb ?x ?y] => rewrite (proj2 (Z.eqb_neq x y) H)
  end); simpl.

Ltac remote_cases n :=
  remote_unfold;
  destruct (String.eqb_spec (address n) ""), (String.eqb_spec (public_address n) ""),
    (Z.eqb_spec (port n) 0), (Z.eqb_spec (public_port n) 0),
    (String.eqb_spec (password n) ""), (String.eqb_spec (private_key_file n) "");
  remote_simp.

(** [RemoteNode.__post_init__] raises on a missing address pair, then on a
    missing port pair, then on missing credentials; otherwise it copies each
    of address/publicAddress and port/publicPort into the other when that
    one is unset. *)
Theorem RemoteNode_post_init_outcome (n : RemoteNode) :
  (address n = "" -> public_address n = "" ->
     RemoteNode_post_init n =
     inl (PyExn (LisaException "at least one of address and publicAddress need to be set"))) /\
  (address n <> "" \/ public_address n <> "" -> port n = 0 -> public_port n = 0 ->
     RemoteNode_post_init n =
     inl (PyExn (LisaException "at least one of port and publicPort need to be set"))) /\
  (address n <> "" \/ public_address n <> "" -> port n <> 0 \/ public_port n <> 0 ->
     password n = "" -> private_key_file n = "" ->
     RemoteNode_post_init n =
     inl (PyExn (LisaException "at least one of password and privateKeyFile need to be set"))) /\
  (address n <> "" \/ public_address n <> "" -> port n <> 0 \/ public_port n <> 0 ->
     password n <> "" \/ private_key_file n <> "" ->
     RemoteNode_post_init n =
     inr (mkRemoteNode (rn_type n) (rn_name n) (rn_is_default n)
            (if String.eqb (address n) "" then public_address n else address n)
            (if port n =? 0 then public_port n else port n)
            (if String.eqb (public_address n) "" then address n else public_address n)
            (if public_port n =? 0 then port n else public_port n)
            (username n) (password n) (private_key_file n) (rn_capability n))).
Proof.
  split_and!; intros; remote_cases n;
    try (destruct n; reflexivity); intuition congruence.
Qed.

(** After a successful [RemoteNode.__post_init__] both addresses and both ports
    are set and a credential is present, and running it again changes
    nothing. *)
Theorem RemoteNode_post_init_idempotent (n n' : RemoteNode) :
  RemoteNode_post_init n = inr n' ->
  address n' <> "" /\ public_address n' <> "" /\ port n' <> 0 /\ public_port n' <> 0 /\
  (password n' <> "" \/ private_key_file n' <> "") /\
  RemoteNode_post_init n' = inr n'.
Proof.
  intros H. revert H. remote_cases n; intros H; try discriminate;
    injection H as <-; simpl; split_and!;
    try (remote_unfold; remote_simp; try (destruct n; reflexivity)); intuition congruence.
Qed.

Lemma run_validators_none (vs : list validator) (x : pyval) :
  run_validators vs x = None <-> Forall (fun f => f x = None) vs.
Proof.
  induction vs as [|f vs IH]; simpl.
  - split; [constructor|done].
  - rewrite Forall_cons. destruct (f x); [split; [done|intros [[=] _]]|]. tauto.
Qed.

Lemma inner_checks_none (self : ListableValidator) (x : pyval) :
  inner_checks self x = None <-> Forall (fun f => f x = None) (lv_inner_validator self).
Proof.
  unfold inner_checks. destruct (lv_inner_validator self) as [|f vs] eqn:He.
  - split; [constructor|done].
  - rewrite <- He. rewrite run_validators_none. by rewrite He.
Qed.

Lemma check_items_none (self : ListableValidator) (items : list pyval) :
  check_items self items = None <-> Forall (item_ok self) items.
Proof.
  induction items as [|x items IH]; simpl.
  - split; [constructor|done].
  - rewrite Forall_cons. unfold item_ok at 1.
    destruct (isinstance (lv_value_type self) x); simpl.
    + destruct (inner_checks self x) eqn:Hi.
      * split; [done|]. intros [[_ Hf] _]. apply inner_checks_none in Hf. congruence.
      * rewrite IH. pose proof (proj1 (inner_checks_none self x) Hi). tauto.
    + split; [done|]. intros [[[=] _] _].
Qed.

Lemma lv_call_spec (self : ListableValidator) (v : pyval) :
  (forall v', ListableValidator_call self v = inr v' -> v' = v) /\
  ((exists v', ListableValidator_call self v = inr v') <-> lv_accepts self v).
Proof.
  unfold ListableValidator_call, lv_accepts, item_ok.
  destruct (isinstance (lv_value_type self) v) eqn:Hi.
  - destruct (inner_checks self v) eqn:Hc.
    + split; [done|]. split; [intros [? [=]]|].
      intros [->|[[_ Hf]|(xs & -> & _)]].
      * destruct (lv_value_type self); discriminate.
      * apply inner_checks_none in Hf. congruence.
      * destruct (lv_value_type self); discriminate.
    + split; [by intros ? [=]|]. split; [intros _; right; left|eauto].
      split; [done|]. by apply inner_checks_none.
  - destruct v as [| | | |xs|]; simpl.
    + split; [by intros ? [=]|]. split; [eauto|eauto].
    + split; [by intros ? [=]|]. split; [intros [? [=]]|].
      intros [[=]|[[Hx _]|(? & [=] & _)]]. congruence.
    + split; [by intros ? [=]|]. split; [intros [? [=]]|].
      intros [[=]|[[Hx _]|(? & [=] & _)]]. congruence.
    + split; [by intros ? [=]|]. split; [intros [? [=]]|].
      intros [[=]|[[Hx _]|(? & [=] & _)]]. congruence.
    + destruct (check_items self xs) eqn:Hc.
      * split; [done|]. split; [intros [? [=]]|].
        intros [[=]|[[Hx _]|(ys & [= <-] & Hys)]]; [congruence|].
        apply check_items_none in Hys. congruence.
      * split; [by intros ? [=]|]. split; [intros _; right; right|eauto].
        exists xs. split; [done|]. by apply check_items_none.
    + split; [by intros ? [=]|]. split; [intros [? [=]]|].
      intros [[=]|[[Hx _]|(? & [=] & _)]]. congruence.
Qed.

(** [ListableValidator.__call__] returns its argument unchanged when it returns,
    and it returns exactly on [None], on a valid item, and on a list of valid
    items. *)
Theorem ListableValidator_call_accepts (self : ListableValidator) (v : pyval) :
  (forall v', ListableValidator_call self v = inr v' -> v' = v) /\
  ((exists v', ListableValidator_call self v = inr v') <-> lv_accepts self v).
Proof. exact (lv_call_spec self v). Qed.

Lemma priority_item_ok (lv : ListableValidator) (x : pyval) :
  priority_validator = inr lv -> (item_ok lv x <-> priority_ok x).
Proof.
  intros H. injection H as <-. unfold item_ok, priority_ok. simpl.
  rewrite Forall_singleton. unfold Range, py_int.
  destruct x as [|[]| z | | |]; simpl; try (split; [intros [[=] _]|done]).
  - split; done.
  - split; done.
  - destruct (Z.leb_spec 0 z), (Z.leb_spec z 3); simpl;
      (split; [intros [_ [=]]; lia|intros; split; [done|]]); try done; lia.
Qed.

Lemma check_items_first_bad (self : ListableValidator) (xs ys : list pyval) (x : pyval) :
  Forall (item_ok self) xs -> isinstance (lv_value_type self) x = false ->
  check_items self (xs ++ x :: ys) = Some (PyExn AssertionError).
Proof.
  intros Hxs Hx. induction Hxs as [|y xs [Hyi Hyf] _ IH]; cbn [app check_items].
  - by rewrite Hx.
  - rewrite Hyi. apply inner_checks_none in Hyf. simpl. by rewrite Hyf.
Qed.

(** [Criteria.priority]'s validator accepts exactly [None], an int (or bool) in
    [0, 3], and lists of those; a list whose first non-int item follows valid
    items raises an assertion error, not a validation error. *)
Theorem priority_validator_values :
  exists lv, priority_validator = inr lv /\
  (forall v, (exists v', ListableValidator_call lv v = inr v') <->
             v = PNone \/ priority_ok v \/ exists xs, v = PList xs /\ Forall priority_ok xs) /\
  (forall xs x ys, Forall priority_ok xs -> isinstance TInt x = false ->
     ListableValidator_call lv (PList (xs ++ x :: ys)) = inl (PyExn AssertionError)).
Proof.
  eexists. split; [reflexivity|]. split.
  - intros v. rewrite (proj2 (lv_call_spec _ v)). unfold lv_accepts.
    rewrite (priority_item_ok _ v eq_refl).
    split; intros [H|[H|(xs & -> & Hxs)]]; auto; right; right; exists xs; (split; [done|]);
      (eapply Forall_impl; [exact Hxs|]); intros y; apply (priority_item_ok _ y eq_refl).
  - intros xs x ys Hxs Hx. unfold ListableValidator_call.
    cbn [isinstance lv_value_type priority_validator ListableValidator_init].
    rewrite check_items_first_bad; [done| |exact Hx].
    eapply Forall_impl; [exact Hxs|]. intros y. apply (priority_item_ok _ y eq_refl).
Qed.

(** Because of name mangling, [get_extended_runbook] never finds its cache: the
    [hasattr] key stays unset, and a second call recomputes from the current
    extension data, ignoring the value stored by the first call. *)
Theorem get_extended_runbook_not_cached {J T : Type} (load : J -> pyexn + T)
    (is_json_mixin : bool) (self self1 : @SchemaObject J T) (field_name : string)
    (v : option T) :
  obj_attrs self !! "__extended_runbook" = None ->
  get_extended_runbook load is_json_mixin self field_name = inr (v, self1) ->
  obj_attrs self1 !! "__extended_runbook" = None /\
  forall es : option (gmap string J),
    get_extended_runbook load is_json_mixin
      (mkSchemaObject es (type_attr self1) (obj_attrs self1)) field_name =
    get_extended_runbook load is_json_mixin
      (mkSchemaObject es (type_attr self) (obj_attrs self)) field_name.
Proof.
  intros Hnone H.
  unfold get_extended_runbook in H. rewrite Hnone in H. simpl in H.
  assert (Hself1 : exists w, self1 = mkSchemaObject (extend_schemas self) (type_attr self)
                                    (<[mangled_extended_runbook := w]> (obj_attrs self))).
  { unfold sbind in H. repeat (case_match; simplify_eq/=); eauto. }
  destruct Hself1 as [w ->]. simpl. split.
  - by rewrite lookup_insert_ne by done.
  - intros es. clear H. unfold get_extended_runbook. simpl.
    rewrite lookup_insert_ne by done. rewrite Hnone. simpl.
    unfold sbind.
    repeat (match goal with
            | |- context [match ?x with _ => _ end] =>
                lazymatch x with
                | context [mangled_extended_runbook] => fail
                | _ => destruct x
                end
            end; simpl);
      rewrite ?lookup_insert_eq, ?insert_insert_eq; reflexivity.
Qed.

Lemma opt_extend_nil {A : Type} (o : option (list A)) : opt_extend o [] = o.
Proof. reflexivity. Qed.

Lemma opt_extend_snoc {A : Type} (o : option (list A)) (a : A) (l : list A) :
  opt_extend (Some (match o with None => [] | Some l => l end ++ [a])) l =
  opt_extend o (a :: l).
Proof. destruct l, o; simpl; try done; by rewrite <- app_assoc. Qed.

Section EnvLemmas.
Context {Raw : Type} (raw_type : Raw -> option string) (raw_repr : Raw -> string)
  (load_local : Raw -> pyexn + LocalNode) (load_remote : Raw -> pyexn + RemoteNode)
  (load_requirement : Raw -> pyexn + NodeSpace).

Lemma env_result_cons (self : @Environment Raw) x xs :
  env_result self (x :: xs) = env_result (env_step self x) xs.
Proof.
  unfold env_result. destruct x as [n|q]; simpl.
  - rewrite opt_extend_snoc, <- app_assoc. reflexivity.
  - rewrite opt_extend_snoc, <- app_assoc. reflexivity.
Qed.

Lemma env_load_nodes_cons_ok r raws self s' :
  env_load_nodes raw_type raw_repr load_local load_remote load_requirement (r :: raws) self = inr s' <->
  exists x, load_one raw_type load_local load_remote load_requirement r = inr x /\
    env_load_nodes raw_type raw_repr load_local load_remote load_requirement raws (env_step self x) = inr s'.
Proof.
  simpl. unfold load_one, sbind.
  destruct (raw_type r) as [t|].
  2:{ split; [intros ?; discriminate|intros (x & Hx & _); discriminate]. }
  repeat case_match.
  all: first [ split; [intros Hl; eexists; split; [reflexivity|exact Hl]
                   |intros (x & Hx & Hl); injection Hx as <-; exact Hl]
          | split; [intros ?; discriminate|intros (x & Hx & _); discriminate] ].
Qed.

Lemma env_load_nodes_spec raws self s' :
  env_load_nodes raw_type raw_repr load_local load_remote load_requirement raws self = inr s' <->
  exists xs, Forall2 (fun r x => load_one raw_type load_local load_remote load_requirement r = inr x) raws xs /\
    s' = env_result self xs.
Proof.
  revert self. induction raws as [|r raws IH]; intros self.
  - simpl. unfold env_result. split.
    + intros [= <-]. exists []. split; [constructor|].
      destruct self as [? ? ? ? [] ?]. simpl. by rewrite app_nil_r.
    + intros (xs & Hxs & ->). apply Forall2_nil_inv_l in Hxs as ->. simpl.
      destruct self as [? ? ? ? [] ?]. simpl. by rewrite app_nil_r.
  - rewrite env_load_nodes_cons_ok. split.
    + intros (x & Hx & Hrest). apply IH in Hrest as (xs & Hxs & ->).
      exists (x :: xs). split; [by constructor|]. by rewrite env_result_cons.
    + intros (xs & Hxs & ->). inversion Hxs as [|? x ? xs' Hx Hxs']; subst.
      exists x. split; [done|]. apply IH. exists xs'. split; [done|].
      by rewrite env_result_cons.
Qed.

End EnvLemmas.

Section EnvTheorems.
Context {Raw : Type} (raw_type : Raw -> option string) (raw_repr : Raw -> string)
  (load_local : Raw -> pyexn + LocalNode) (load_remote : Raw -> pyexn + RemoteNode)
  (load_requirement : Raw -> pyexn + NodeSpace).

Lemma opt_extend_some_nil {A : Type} (l : list A) : opt_extend (Some []) l = Some l.
Proof. by destruct l. Qed.

Lemma env_load_nodes_cons_step r x raws self :
  load_one raw_type load_local load_remote load_requirement r = inr x ->
  env_load_nodes raw_type raw_repr load_local load_remote load_requirement (r :: raws) self =
  env_load_nodes raw_type raw_repr load_local load_remote load_requirement raws (env_step self x).
Proof.
  unfold load_one, sbind. simpl. intros Hx.
  destruct (raw_type r) as [t|]; [|discriminate].
  repeat case_match; simplify_eq/=; reflexivity.
Qed.

Lemma env_load_nodes_cons_fail r t e raws self :
  raw_type r = Some t ->
  (t = ENVIRONMENTS_NODES_LOCAL /\ load_local r = inl e \/
   t = ENVIRONMENTS_NODES_REMOTE /\ load_remote r = inl e \/
   t = ENVIRONMENTS_NODES_REQUIREMENT /\ load_requirement r = inl e) ->
  env_load_nodes raw_type raw_repr load_local load_remote load_requirement (r :: raws) self = inl e.
Proof.
  intros Ht Hl. simpl. rewrite Ht.
  destruct Hl as [[-> He]|[[-> He]|[-> He]]]; simpl; by rewrite He.
Qed.

Lemma env_load_nodes_prefix pre rest self :
  Forall (fun r => exists x, load_one raw_type load_local load_remote load_requirement r = inr x) pre ->
  exists self1,
    env_load_nodes raw_type raw_repr load_local load_remote load_requirement (pre ++ rest) self =
    env_load_nodes raw_type raw_repr load_local load_remote load_requirement rest self1.
Proof.
  revert self. induction pre as [|r pre IH]; intros self Hpre.
  - by exists self.
  - apply Forall_cons in Hpre as [[x Hx] Hpre].
    change ((r :: pre) ++ rest) with (r :: (pre ++ rest)).
    rewrite (env_load_nodes_cons_step r x) by exact Hx.
    by apply IH.
Qed.

(** [Environment.__post_init__] succeeds exactly when every raw node entry
    loads; then the nodes, requirements and capability nodes are the loaded
    entries in order, the capability takes the environment's topology and
    [nodes_raw] is cleared. Without raw nodes, [nodes] is [None]. *)
Theorem Environment_post_init_loaded (self self' : @Environment Raw) :
  Environment_post_init raw_type raw_repr load_local load_remote load_requirement self = inr self' <->
  match nodes_raw self with
  | None =>
      self' = mkEnvironment (env_name self) (env_topology self) None
                (nodes_requirement self) (env_capability self) None
  | Some raws =>
      exists xs,
        Forall2 (fun r x => load_one raw_type load_local load_remote load_requirement r = inr x)
          raws xs /\
        self' = mkEnvironment (env_name self) (env_topology self) None
                  (opt_extend (nodes_requirement self) (concat (map loaded_requirement xs)))
                  (mkEnvironmentSpace (env_topology self)
                     (nodes (env_capability self) ++ map loaded_capability xs))
                  (Some (concat (map loaded_node xs)))
  end.
Proof.
  unfold Environment_post_init. simpl.
  destruct (nodes_raw self) as [raws|]; simpl.
  - unfold sbind. case_eq (env_load_nodes raw_type raw_repr load_local load_remote
                             load_requirement raws
                             (mkEnvironment (env_name self) (env_topology self) (Some raws)
                                (nodes_requirement self)
                                (mkEnvironmentSpace (env_topology self)
                                   (nodes (env_capability self))) (Some []))).
    + intros e He. split; [discriminate|]. intros (xs & Hxs & _).
      assert (Hok : exists s, env_load_nodes raw_type raw_repr load_local load_remote
                       load_requirement raws
                       (mkEnvironment (env_name self) (env_topology self) (Some raws)
                          (nodes_requirement self)
                          (mkEnvironmentSpace (env_topology self)
                             (nodes (env_capability self))) (Some [])) = inr s).
      { eexists. apply env_load_nodes_spec. eexists. split; [exact Hxs|reflexivity]. }
      destruct Hok as [s Hs]. congruence.
    + intros s Hs. apply env_load_nodes_spec in Hs as (xs & Hxs & ->).
      unfold env_result; simpl. rewrite opt_extend_some_nil. split.
      * intros [= <-]. by exists xs.
      * intros (ys & Hys & ->).
        assert (xs = ys) as <-.
        { clear -Hxs Hys. revert ys Hys. induction Hxs; intros ys Hys;
            inversion Hys; subst; [done|]. f_equal; [congruence|eauto]. }
        reflexivity.
  - split; [by intros [= <-]|by intros ->].
Qed.

(** The first raw node entry that does not load decides the error of
    [Environment.__post_init__]: a missing type raises [KeyError], an unknown
    type raises [LisaException] naming it, and a failed load propagates. *)
Theorem Environment_post_init_first_error (self : @Environment Raw) pre r post :
  nodes_raw self = Some (pre ++ r :: post) ->
  Forall (fun r => exists x, load_one raw_type load_local load_remote load_requirement r = inr x) pre ->
  (raw_type r = None ->
     Environment_post_init raw_type raw_repr load_local load_remote load_requirement self =
     inl KeyError) /\
  (forall t, raw_type r = Some t ->
     t <> ENVIRONMENTS_NODES_LOCAL -> t <> ENVIRONMENTS_NODES_REMOTE ->
     t <> ENVIRONMENTS_NODES_REQUIREMENT ->
     Environment_post_init raw_type raw_repr load_local load_remote load_requirement self =
     inl (PyExn (LisaException ("unknown node type '" +:+ t +:+ "': " +:+ raw_repr r)))) /\
  (forall t e, raw_type r = Some t ->
     (t = ENVIRONMENTS_NODES_LOCAL /\ load_local r = inl e \/
      t = ENVIRONMENTS_NODES_REMOTE /\ load_remote r = inl e \/
      t = ENVIRONMENTS_NODES_REQUIREMENT /\ load_requirement r = inl e) ->
     Environment_post_init raw_type raw_repr load_local load_remote load_requirement self =
     inl e).
Proof.
  intros Hraw Hpre. unfold Environment_post_init. simpl. rewrite Hraw. simpl.
  destruct (env_load_nodes_prefix pre (r :: post)
              (mkEnvironment (env_name self) (env_topology self) (Some (pre ++ r :: post))
                 (nodes_requirement self)
                 (mkEnvironmentSpace (env_topology self) (nodes (env_capability self)))
                 (Some [])) Hpre) as [self1 ->].
  split_and!.
  - intros Ht. simpl. by rewrite Ht.
  - intros t Ht H1 H2 H3. simpl. rewrite Ht.
    apply String.eqb_neq in H1, H2, H3. by rewrite H1, H2, H3.
  - intros t e Ht Hl. by rewrite (env_load_nodes_cons_fail r t e).
Qed.

End EnvTheorems.

Lemma tags_item_ok (lv : ListableValidator) (x : pyval) :
  tags_validator = inr lv -> (item_ok lv x <-> exists s, x = PStr s).
Proof.
  intros H. injection H as <-. unfold item_ok. simpl.
  destruct x; simpl; split; try (intros [[=] _]); try (intros [? [=]]); eauto.
Qed.

(** [Criteria.tags]'s validator accepts exactly [None], a string, and lists of
    strings; a list whose first non-string item follows strings raises an
    assertion error. *)
Theorem tags_validator_values :
  exists lv, tags_validator = inr lv /\
  (forall v, (exists v', ListableValidator_call lv v = inr v') <->
             v = PNone \/ (exists s, v = PStr s) \/
             exists xs, v = PList xs /\ Forall (fun x => exists s, x = PStr s) xs) /\
  (forall xs x ys, Forall (fun x => exists s, x = PStr s) xs -> (forall s, x <> PStr s) ->
     ListableValidator_call lv (PList (xs ++ x :: ys)) = inl (PyExn AssertionError)).
Proof.
  eexists. split; [reflexivity|]. split.
  - intros v. rewrite (proj2 (lv_call_spec _ v)). unfold lv_accepts.
    rewrite (tags_item_ok _ v eq_refl).
    split; intros [H|[H|(xs & -> & Hxs)]]; auto; right; right; exists xs; (split; [done|]);
      (eapply Forall_impl; [exact Hxs|]); intros y; apply (tags_item_ok _ y eq_refl).
  - intros xs x ys Hxs Hx. unfold ListableValidator_call.
    cbn [isinstance lv_value_type tags_validator ListableValidator_init].
    rewrite check_items_first_bad; [done| |].
    + eapply Forall_impl; [exact Hxs|]. intros y. apply (tags_item_ok _ y eq_refl).
    + destruct x; simpl; try done. by destruct (Hx s).
Qed.

(** [Platform.__post_init__] never changes the platform, and it succeeds
    exactly when the type is [ready] or exactly one of the admin password and
    the private key file is set. *)
Theorem Platform_post_init_credentials (p p' : Platform) :
  Platform_post_init p = inr p' <->
  p' = p /\
  (pl_type p = PLATFORM_READY \/ (admin_password p = "" <-> admin_private_key_file p <> "")).
Proof.
  unfold Platform_post_init, str_truthy.
  destruct (String.eqb_spec (pl_type p) PLATFORM_READY) as [Ht|Ht];
    destruct (String.eqb_spec (admin_password p) ""),
             (String.eqb_spec (admin_private_key_file p) ""); simpl;
    (split; [intros [= <-]; intuition congruence|intros [-> ?]]);
    intuition congruence.
Qed.

Lemma from_value_generate_min_capability_store_witness :
  exists r,
    NodeSpace_from_value (Some sriov_cap) sriov_store = (inr r, sriov_store) /\
    excluded_features r = Some [4%positive] /\
    exists m σ',
      NodeSpace_generate_min_capability r (rdma_cap 3%positive) sriov_store = (inr m, σ') /\
      σ' = sriov_store.
Proof.
  eexists. split; [reflexivity|].
  split; [reflexivity|].
  match goal with
  | |- exists m σ', NodeSpace_generate_min_capability ?r _ _ = _ /\ _ =>
      destruct (NodeSpace_generate_min_capability r (rdma_cap 3%positive) sriov_store)
        as [[e|m] σ'] eqn:Eg; [vm_compute in Eg; discriminate|];
      exists m, σ'; split; [reflexivity|];
      exact (from_value_generate_min_capability_store sriov_cap (rdma_cap 3%positive)
               sriov_store r m σ' eq_refl Eg)
  end.
Defined.

Lemma generate_min_capability_features_witness :
  exists m σ',
    NodeSpace_generate_min_capability (ns_set_features rdma_req (Some [3%positive])) (rdma_cap 3%positive) rdma_store = (inr m, σ') /\
    exists fs, features m = Some fs /\ NoDup fs /\
      forall l, l ∈ fs <-> l = 3%positive \/ l = 1%positive.
Proof.
  destruct (NodeSpace_generate_min_capability (ns_set_features rdma_req (Some [3%positive])) (rdma_cap 3%positive) rdma_store)
    as [[e|m] σ'] eqn:E; [vm_compute in E; discriminate|].
  exists m, σ'. split; [reflexivity|].
  destruct (generate_min_capability_features (ns_set_features rdma_req (Some [3%positive])) (rdma_cap 3%positive) m rdma_store σ'
              E) as (_ & _ & _ & _ & _ & fs & Hfs & Hnd & Hin).
  exists fs. split_and!; [exact Hfs|exact Hnd|]. intros l. rewrite Hin. simpl.
  rewrite !list_elem_of_singleton. tauto.
Defined.

Lemma RemoteNode_post_init_idempotent_witness :
  exists n', RemoteNode_post_init ssh_node = inr n' /\ RemoteNode_post_init n' = inr n'.
Proof.
  eexists. split; [reflexivity|].
  exact (proj2 (proj2 (proj2 (proj2 (proj2
    (RemoteNode_post_init_idempotent ssh_node _ eq_refl)))))).
Defined.

Lemma get_extended_runbook_not_cached_witness :
  exists self1,
    obj_attrs runbook_object !! "__extended_runbook" = None /\
    get_extended_runbook inr true runbook_object "custom" = inr (Some 5%nat, self1) /\
    obj_attrs self1 !! "__extended_runbook" = None.
Proof.
  eexists. split; [reflexivity|]. split; [reflexivity|].
  exact (proj1 (get_extended_runbook_not_cached inr true runbook_object _ "custom" _
                  eq_refl eq_refl)).
Defined.

Lemma Environment_post_init_first_error_witness :
  Environment_post_init string_raw_type id
    (fun _ => inr (mkLocalNode "local" "" false (exact_node 1 4 2048 1 0)))
    (fun _ => inl ValidationError) (fun _ => inl ValidationError) gpu_environment =
  inl (PyExn (LisaException "unknown node type 'gpu': gpu")) /\
  Environment_post_init string_raw_type id
    (fun _ => inr (mkLocalNode "local" "" false (exact_node 1 4 2048 1 0)))
    (fun _ => inl ValueError) (fun _ => inl ValidationError) remote_environment =
  inl ValueError.
Proof.
  split.
  - apply (proj1 (proj2 (Environment_post_init_first_error string_raw_type id
      (fun _ => inr (mkLocalNode "local" "" false (exact_node 1 4 2048 1 0)))
      (fun _ => inl ValidationError) (fun _ => inl ValidationError) gpu_environment
      ["local"] "gpu" [] eq_refl ltac:(repeat constructor; eexists; reflexivity))) "gpu");
      [reflexivity|discriminate..].
  - apply (proj2 (proj2 (Environment_post_init_first_error string_raw_type id
      (fun _ => inr (mkLocalNode "local" "" false (exact_node 1 4 2048 1 0)))
      (fun _ => inl ValueError) (fun _ => inl ValidationError) remote_environment
      ["local"] "remote" ["gpu"] eq_refl ltac:(repeat constructor; eexists; reflexivity)))
      "remote" ValueError); [reflexivity|].
    right. left. split; reflexivity.
Defined.
